(** * Browsing digest pipeline of dailyBrowsing_llamaCPP.py

    A shallow embedding of the digest-construction pipeline: record repair
    ([normalize_json_keys], [_collect_keys], [load_browsing_data]), the
    content budgeter ([prepare_content_for_llm]), the top-pages ranker
    ([get_top_pages]) and the artifact writer ([save_digest]).

    Conventions of the embedding.
    - A Python [str] is a Rocq [string]; one character of the model stands
      for one code point.  [isspace] and [lower] are given for the code
      points below 256, where [str.lower] maps character to character.  Text
      of the source's literals is copied as it is.
    - JSON numbers, and the floats computed from them, are rationals: the
      comparisons of the source ([> 0.5], the budget test on multiples of
      [0.25]) are exact on them.
    - A page is a record with optional fields, typed as the data model has
      them; [None] is the absent key, which [dict.get] replaces by its
      default.
    - File-system effects are threaded through a state and exception monad
      over a [World] that records the files, the clock, a schedule of I/O
      faults and the trace of effects performed. *)

From Stdlib Require Import List String Ascii Bool Arith ZArith QArith Lia Lqa.
From Stdlib Require Import Permutation Sorted DecimalString.
Import ListNotations.

Local Close Scope Q_scope.
Local Open Scope string_scope.
Local Open Scope list_scope.
Local Open Scope nat_scope.

(* ================================================================== *)
(** ** Python [str] methods *)

Definition nl : string := String (ascii_of_nat 10) "".

(** [str.isspace] of one character: U+0009..U+000D, U+001C..U+0020,
    U+0085 and U+00A0. *)
Definition isspace (c : ascii) : bool :=
  let n := nat_of_ascii c in
  ((9 <=? n) && (n <=? 13)) || ((28 <=? n) && (n <=? 32))
  || (n =? 133) || (n =? 160).

Fixpoint lstrip (s : string) : string :=
  match s with
  | "" => ""
  | String c s' => if isspace c then lstrip s' else s
  end.

Fixpoint rstrip (s : string) : string :=
  match s with
  | "" => ""
  | String c s' =>
      match rstrip s' with
      | "" => if isspace c then "" else String c ""
      | r => String c r
      end
  end.

(** [s.strip()] *)
Definition strip (s : string) : string := lstrip (rstrip s).

(** [str.lower] of one character: A..Z, and U+00C0..U+00DE but U+00D7. *)
Definition lower_char (c : ascii) : ascii :=
  let n := nat_of_ascii c in
  if ((65 <=? n) && (n <=? 90))
     || ((192 <=? n) && (n <=? 222) && negb (n =? 215))
  then ascii_of_nat (n + 32) else c.

Fixpoint lower (s : string) : string :=
  match s with
  | "" => ""
  | String c s' => String (lower_char c) (lower s')
  end.

(** [s.startswith(p)] *)
Definition startswith (p s : string) : bool := String.prefix p s.

(** [s.endswith(p)] *)
Fixpoint endswith (p s : string) : bool :=
  (s =? p)%string ||
  match s with
  | "" => false
  | String _ s' => endswith p s'
  end.

(** [s[:n]] for [n >= 0] *)
Definition slice_to (n : nat) (s : string) : string := substring 0 n s.

(** [s.replace(c, r)] for a one-character [c] *)
Fixpoint replace_char (c : ascii) (r : string) (s : string) : string :=
  match s with
  | "" => ""
  | String a s' =>
      if Ascii.eqb a c then (r ++ replace_char c r s')%string
      else String a (replace_char c r s')
  end.

(** [sep.join(parts)] *)
Definition join (sep : string) (parts : list string) : string :=
  String.concat sep parts.

(** [bool(s)] of a string *)
Definition truthy (s : string) : bool := negb (s =? "")%string.

(** [k in s] for a set of strings *)
Definition mem (k : string) (s : list string) : bool :=
  existsb (String.eqb k) s.

(** [s.add(k)] for a set of strings *)
Definition set_add (k : string) (s : list string) : list string :=
  if mem k s then s else s ++ [k].

(* ================================================================== *)
(** ** Python's [sorted]: the stable sort by a key order

    [sorted] is specified as a stable sort, and the stable sort of a list
    under a total preorder is one function; it is written here as the
    insertion that puts an element before the first one it does not
    exceed.  [le x y] reads "x may stand before y". *)

Section Sorted.
Context {A : Type} (le : A -> A -> bool).

Fixpoint insert (x : A) (l : list A) : list A :=
  match l with
  | [] => [x]
  | y :: l' => if le x y then x :: l else y :: insert x l'
  end.

Definition sorted (l : list A) : list A := fold_right insert [] l.
End Sorted.

(* ================================================================== *)
(** ** JSON values, as [json.loads] returns them *)

#[local] Set Warnings "-register-all".

Inductive json : Type :=
| JNull
| JBool (b : bool)
| JNum (q : Q)
| JStr (s : string)
| JList (items : list json)
| JDict (items : list (string * json)).

(** [d[k] = v] on an insertion-ordered dict: a key already there keeps
    its place and takes the new value. *)
Fixpoint dict_set {V : Type} (k : string) (v : V) (d : list (string * V))
  : list (string * V) :=
  match d with
  | [] => [(k, v)]
  | (k', v') :: d' =>
      if (k =? k')%string then (k', v) :: d'
      else (k', v') :: dict_set k v d'
  end.

Definition dict_get {V : Type} (k : string) (d : list (string * V))
  : option V :=
  option_map snd (find (fun kv => (k =? fst kv)%string) d).

Definition dict_keys {V : Type} (d : list (string * V)) : list string :=
  map fst d.

Fixpoint normalize_json_keys (obj : json) : json :=
  match obj with
  | JDict items =>
      JDict (fold_left
               (fun acc kv =>
                  if truthy (strip (fst kv))
                  then dict_set (strip (fst kv))
                                (normalize_json_keys (snd kv)) acc
                  else acc)
               items [])
  | JList items => JList (map normalize_json_keys items)
  | JStr s => JStr (strip s)
  | _ => obj
  end.

Fixpoint _collect_keys (obj : json) (keys : list string) : list string :=
  match obj with
  | JDict items =>
      fold_left
        (fun ks kv => _collect_keys (snd kv) (set_add (fst kv) ks))
        items keys
  | JList items =>
      fold_left (fun ks item => _collect_keys item ks) items keys
  | _ => keys
  end.

(** The test of [load_browsing_data] on the collected keys. *)
Definition needs_repair (data : json) : bool :=
  existsb (fun k => startswith " " k || endswith " " k)
          (_collect_keys data []).

(* ================================================================== *)
(** ** The run-time library the program calls

    [json_loads] is [json.loads] ([inr] is the message of its
    [JSONDecodeError]); [json_dump] is the text that
    [json.dump(_, indent=2, ensure_ascii=False)] writes; [fromisoformat]
    is [datetime.fromisoformat] ([None] when it raises [ValueError]);
    [str_num] is [str] of a number. *)

Record DateTime : Type := mkDateTime {
  year : nat; month : nat; day : nat;
  hour : nat; minute : nat; second : nat
}.

Class Runtime : Type := {
  json_loads : string -> json + string;
  json_dump : json -> string;
  fromisoformat : string -> option DateTime;
  str_num : Q -> string
}.

Definition digit (n : nat) : string :=
  String (ascii_of_nat (48 + n mod 10)) "".

Definition pad2 (n : nat) : string :=
  (digit (n / 10) ++ digit n)%string.

Definition pad4 (n : nat) : string :=
  (digit (n / 1000) ++ digit (n / 100) ++ pad2 n)%string.

(** [dt.strftime('%H:%M')] *)
Definition strftime_HM (dt : DateTime) : string :=
  (pad2 (hour dt) ++ ":" ++ pad2 (minute dt))%string.

(** [dt.strftime('%Y-%m-%d %H:%M')] *)
Definition strftime_Ymd_HM (dt : DateTime) : string :=
  (pad4 (year dt) ++ "-" ++ pad2 (month dt) ++ "-" ++ pad2 (day dt)
   ++ " " ++ strftime_HM dt)%string.

(* ================================================================== *)
(** ** [pathlib]: name, suffix and [with_suffix] of a path in normal form *)

Fixpoint has_char (c : ascii) (s : string) : bool :=
  match s with
  | "" => false
  | String a s' => Ascii.eqb a c || has_char c s'
  end.

(** [path.name]: what follows the last separator *)
Fixpoint path_name (p : string) : string :=
  match p with
  | "" => ""
  | String c rest =>
      if has_char "/" rest then path_name rest
      else if Ascii.eqb c "/" then rest else p
  end.

(** [s[s.rfind(c):]] when [c] occurs in [s] *)
Fixpoint from_last (c : ascii) (s : string) : option string :=
  match s with
  | "" => None
  | String a rest =>
      match from_last c rest with
      | Some r => Some r
      | None => if Ascii.eqb a c then Some s else None
      end
  end.

(** [path.suffix]: with [i = name.rfind('.')], [name[i:]] if
    [0 < i < len(name) - 1], else the empty string *)
Definition path_suffix (p : string) : string :=
  match path_name p with
  | "" => ""
  | String _ rest =>
      match from_last "." rest with
      | Some suf => if String.length suf =? 1 then "" else suf
      | None => ""
      end
  end.

(** [path.with_suffix(suffix)] *)
Definition with_suffix (p suffix : string) : string :=
  (substring 0 (String.length p - String.length (path_suffix p)) p
   ++ suffix)%string.

(* ================================================================== *)
(** ** The world and the monad of effects *)

Inductive Event : Type :=
| EvExists (path : string)
| EvRead (path : string)
| EvCopy (src dst : string)
| EvWrite (path content : string)
| EvPrint (msg : string).

(** A fault [Some n] makes the next file operation raise [OSError]; a
    faulting write leaves the first [n] characters of its text in the
    file, which [open(_, 'w')] has truncated.  [None], or an exhausted
    schedule, lets the operation succeed. *)
Record World : Type := mkWorld {
  fs : string -> option string;
  clock : DateTime;
  faults : list (option nat);
  trace : list Event
}.

Inductive value_error : Type :=
| ExpectedJsonFile (suffix : string)
| InvalidJsonFormat (e : string)
| MissingRequiredKeys (missing actual : list string).

Inductive exn : Type :=
| FileNotFoundError (filepath : string)
| ValueError (msg : value_error)
| AttributeError
| OSError.

Inductive outcome (A : Type) : Type :=
| Return (a : A)
| Raise (e : exn).
Arguments Return {A} a.
Arguments Raise {A} e.

Definition M (A : Type) : Type := World -> outcome A * World.

Definition ret {A : Type} (a : A) : M A := fun w => (Return a, w).

Definition raise {A : Type} (e : exn) : M A := fun w => (Raise e, w).

Definition bind {A B : Type} (m : M A) (k : A -> M B) : M B :=
  fun w =>
    match m w with
    | (Return a, w') => k a w'
    | (Raise e, w') => (Raise e, w')
    end.

Declare Scope io_scope.
Delimit Scope io_scope with io.
Notation "x <- m ;; k" := (bind m (fun x => k))
  (at level 100, m at next level, right associativity) : io_scope.
Notation "m ;; k" := (bind m (fun _ => k))
  (at level 100, right associativity) : io_scope.

Definition log (e : Event) (w : World) : World :=
  mkWorld (fs w) (clock w) (faults w) (trace w ++ [e]).

Definition next_fault (w : World) : option nat * World :=
  match faults w with
  | [] => (None, w)
  | f :: rest => (f, mkWorld (fs w) (clock w) rest (trace w))
  end.

Definition fs_set (p c : string) (w : World) : World :=
  mkWorld (fun q => if (q =? p)%string then Some c else fs w q)
          (clock w) (faults w) (trace w).

(** [path.exists()] *)
Definition path_exists (p : string) : M bool :=
  fun w =>
    (Return (match fs w p with Some _ => true | None => false end),
     log (EvExists p) w).

(** [open(p, 'r').read()] *)
Definition read_text (p : string) : M string :=
  fun w =>
    match next_fault w with
    | (Some _, w') => (Raise OSError, w')
    | (None, w') =>
        match fs w' p with
        | Some c => (Return c, log (EvRead p) w')
        | None => (Raise (FileNotFoundError p), w')
        end
    end.

(** [shutil.copy2(src, dst)] *)
Definition copy2 (src dst : string) : M unit :=
  fun w =>
    match next_fault w with
    | (Some _, w') => (Raise OSError, w')
    | (None, w') =>
        match fs w' src with
        | Some c => (Return tt, log (EvCopy src dst) (fs_set dst c w'))
        | None => (Raise (FileNotFoundError src), w')
        end
    end.

(** [open(p, 'w').write(text)] *)
Definition write_text (p text : string) : M unit :=
  fun w =>
    match next_fault w with
    | (Some n, w') =>
        let partial := substring 0 n text in
        (Raise OSError, log (EvWrite p partial) (fs_set p partial w'))
    | (None, w') => (Return tt, log (EvWrite p text) (fs_set p text w'))
    end.

Definition print (msg : string) : M unit :=
  fun w => (Return tt, log (EvPrint msg) w).

(** [datetime.now()] *)
Definition datetime_now : M DateTime := fun w => (Return (clock w), w).

(* ================================================================== *)
(** ** Record repair: [load_browsing_data] *)

Definition required_keys : list string := ["date"; "pages"].

Definition load_browsing_data `{Runtime} (filepath : string) : M json :=
  (let path := filepath in
   found <- path_exists path ;;
   if negb found then raise (FileNotFoundError filepath) else
   if negb (lower (path_suffix path) =? ".json")%string
   then raise (ValueError (ExpectedJsonFile (path_suffix path))) else
   raw_content <- read_text path ;;
   match json_loads raw_content with
   | inr e => raise (ValueError (InvalidJsonFormat e))
   | inl data =>
       data <-
         (if needs_repair data then
            print "⚠️  Malformed JSON detected - repairing keys/values..." ;;
            let original_backup := with_suffix path ".json.bak" in
            copy2 path original_backup ;;
            print ("   Original saved as: " ++ path_name original_backup) ;;
            let repaired_data := normalize_json_keys data in
            write_text path (json_dump repaired_data) ;;
            print ("   Repaired JSON saved to: " ++ path_name path) ;;
            ret repaired_data
          else ret data) ;;
       match data with
       | JDict items =>
           let actual_keys := dict_keys items in
           let missing_keys :=
             filter (fun k => negb (mem k actual_keys)) required_keys in
           match missing_keys with
           | [] => ret data
           | _ => raise (ValueError
                           (MissingRequiredKeys missing_keys actual_keys))
           end
       | _ => raise AttributeError
       end
   end)%io.

(* ================================================================== *)
(** ** The artifact writer: [save_digest] *)

Record Stats : Type := mkStats {
  total_pages : Q;
  total_reading_time : Q
}.

Definition full_content `{Runtime}
  (digest date : string) (now : DateTime) (stats : Stats) : string :=
  ("# 📚 Browsing Digest - " ++ date ++ nl
   ++ "**Generated**: " ++ strftime_Ymd_HM now ++ nl
   ++ "**Pages analyzed**: " ++ str_num (total_pages stats) ++ nl
   ++ "**Estimated reading time**: "
   ++ str_num (total_reading_time stats) ++ " minutes" ++ nl
   ++ "---" ++ nl
   ++ digest ++ nl
   ++ "---" ++ nl
   ++ "*Generated locally using llama.cpp server. No data left your machine.*"
   ++ nl)%string.

Definition save_digest `{Runtime}
  (digest output_path date : string) (stats : Stats) : M unit :=
  (now <- datetime_now ;;
   write_text output_path (full_content digest date now stats))%io.

(* ================================================================== *)
(** ** Pages *)

Record PageVisit : Type := mkPage {
  url : option string;
  title : option string;
  domain : option string;
  content : option string;
  timestamp : option string;
  readingTime : option Q
}.

Record BrowsingRecord : Type := mkRecord {
  data_date : option string;
  data_pages : option (list PageVisit);
  data_totalPages : option Q
}.

(** [d.get(key, default)] on a field *)
Definition get {A : Type} (field : option A) (default : A) : A :=
  match field with
  | Some v => v
  | None => default
  end.

(** [a > b] on numbers *)
Definition Qgtb (a b : Q) : bool := negb (Qle_bool a b).

(** [l[:n]], where a negative [n] counts from the end *)
Definition py_slice_to {A : Type} (n : Z) (l : list A) : list A :=
  if (0 <=? n)%Z then firstn (Z.to_nat n) l
  else firstn (List.length l - Z.to_nat (- n)) l.

(* ================================================================== *)
(** ** Content budgeter: [prepare_content_for_llm] *)

(** The [try] block: the time of day, or the marker when the timestamp
    does not parse. *)
Definition time_str `{Runtime} (timestamp : string) : string :=
  match fromisoformat (replace_char "Z" "+00:00" timestamp) with
  | Some dt => strftime_HM dt
  | None => "Unknown time"
  end.

Definition page_text `{Runtime} (page : PageVisit) : string :=
  let title := get (title page) "Untitled" in
  let domain := get (domain page) "Unknown" in
  let content := slice_to 1000 (get (content page) "") in
  let timestamp := get (timestamp page) "" in
  (nl ++ "---" ++ nl
   ++ "[" ++ time_str timestamp ++ "] " ++ title ++ nl
   ++ "Source: " ++ domain ++ nl
   ++ "Content: " ++ content ++ nl)%string.

Definition tokens_per_char : Q := 25 # 100.

Definition page_tokens (text : string) : Q :=
  (inject_Z (Z.of_nat (String.length text)) * tokens_per_char)%Q.

(** The [for] loop with its [break]; [content_parts] and
    [estimated_tokens] are the loop's variables. *)
Fixpoint budget_loop `{Runtime} (max_tokens : Z) (pages : list PageVisit)
  (content_parts : list string) (estimated_tokens : Q) : list string :=
  match pages with
  | [] => content_parts
  | page :: rest =>
      let text := page_text page in
      if Qgtb (estimated_tokens + page_tokens text)%Q (inject_Z max_tokens)
      then content_parts
      else budget_loop max_tokens rest (content_parts ++ [text])
                       (estimated_tokens + page_tokens text)%Q
  end.

(** The order of [sorted(pages, key=lambda x: x.get('timestamp', ''))] *)
Definition timestamp_le (p q : PageVisit) : bool :=
  String.leb (get (timestamp p) "") (get (timestamp q) "").

(** The blocks the loop accepts. *)
Definition content_parts `{Runtime} (data : BrowsingRecord) (max_tokens : Z)
  : list string :=
  budget_loop max_tokens (sorted timestamp_le (get (data_pages data) []))
              [] 0%Q.

Definition prepare_content_for_llm `{Runtime}
  (data : BrowsingRecord) (max_tokens : Z) : string :=
  let pages := get (data_pages data) [] in
  match pages with
  | [] => ""
  | _ => join nl (content_parts data max_tokens)
  end.

(* ================================================================== *)
(** ** Top-pages ranker: [get_top_pages] *)

(** The condition of the list comprehension. *)
Definition is_valid_page (p : PageVisit) : bool :=
  match url p with
  | None => false
  | Some u =>
      truthy u
      && startswith "http" (strip u)
      && (Qgtb (get (readingTime p) 0%Q) (5 # 10)
          || (100 <? String.length (get (content p) "")))
  end.

Definition sort_key (p : PageVisit) : Q * nat :=
  (get (readingTime p) 0%Q, String.length (get (content p) "")).

(** [a <= b] on the key tuples *)
Definition key_le (a b : Q * nat) : bool :=
  if Qeq_bool (fst a) (fst b) then snd a <=? snd b
  else Qle_bool (fst a) (fst b).

(** The order of [sorted(_, key=..., reverse=True)]: [p] may stand
    before [q] when the key of [q] does not exceed that of [p]. *)
Definition rank_le (p q : PageVisit) : bool :=
  key_le (sort_key q) (sort_key p).

Definition dedup_key (page : PageVisit) : string :=
  let title := slice_to 50 (lower (strip (get (title page) ""))) in
  let domain := lower (strip (get (domain page) "")) in
  (domain ++ ":" ++ title)%string.

(** The deduplicating [for] loop with its [break]; [seen] and
    [unique_pages] are the loop's variables. *)
Fixpoint dedup_loop (top_n : Z) (sorted_pages : list PageVisit)
  (seen : list string) (unique_pages : list PageVisit) : list PageVisit :=
  match sorted_pages with
  | [] => unique_pages
  | page :: rest =>
      let key := dedup_key page in
      if negb (mem key seen) then
        let seen := set_add key seen in
        let unique_pages := unique_pages ++ [page] in
        if (top_n <=? Z.of_nat (List.length unique_pages))%Z
        then unique_pages
        else dedup_loop top_n rest seen unique_pages
      else dedup_loop top_n rest seen unique_pages
  end.

Definition valid_pages (data : BrowsingRecord) : list PageVisit :=
  filter is_valid_page (get (data_pages data) []).

Definition sorted_pages (data : BrowsingRecord) : list PageVisit :=
  sorted rank_le (valid_pages data).

Definition get_top_pages (data : BrowsingRecord) (top_n : Z)
  : list PageVisit :=
  match valid_pages data with
  | [] => []
  | _ => py_slice_to top_n (dedup_loop top_n (sorted_pages data) [] [])
  end.

(* ================================================================== *)
(** ** Predicates of the specification *)

(** A string begins, or ends, with a white-space character. *)
Definition leading_ws (s : string) : bool :=
  match s with
  | "" => false
  | String c _ => isspace c
  end.

Fixpoint trailing_ws (s : string) : bool :=
  match s with
  | "" => false
  | String c "" => isspace c
  | String _ s' => trailing_ws s'
  end.

Definition surrounding_ws (s : string) : bool :=
  leading_ws s || trailing_ws s.

(** Every key of every mapping, at any depth. *)
Fixpoint all_keys (obj : json) : list string :=
  match obj with
  | JDict items => flat_map (fun kv => fst kv :: all_keys (snd kv)) items
  | JList items => flat_map all_keys items
  | _ => []
  end.

(** An already-normalized record: no key with surrounding white space,
    no empty key, no string value with surrounding white space. *)
Fixpoint normalized (obj : json) : bool :=
  match obj with
  | JDict items =>
      forallb (fun kv => negb (surrounding_ws (fst kv)) && truthy (fst kv)
                         && normalized (snd kv)) items
  | JList items => forallb normalized items
  | JStr s => negb (surrounding_ws s)
  | _ => true
  end.

Fixpoint nodupb (l : list string) : bool :=
  match l with
  | [] => true
  | k :: l' => negb (mem k l') && nodupb l'
  end.

(** The keys of a Python dict are distinct, in every mapping of the
    value. *)
Fixpoint dict_wf (obj : json) : bool :=
  match obj with
  | JDict items =>
      nodupb (dict_keys items) && forallb (fun kv => dict_wf (snd kv)) items
  | JList items => forallb dict_wf items
  | _ => true
  end.


(** The two sort keys of a page, with the defaults of [dict.get]. *)
Definition reading_time (p : PageVisit) : Q := get (readingTime p) 0%Q.

Definition content_length (p : PageVisit) : nat :=
  String.length (get (content p) "").

(** The eligibility rule of the ranker, in the words of the
    specification: the URL is present, not empty and begins with [http]
    once trimmed, and the reading time exceeds 0.5 or the content is
    longer than 100 characters. *)
Definition eligible (p : PageVisit) : Prop :=
  (exists u, url p = Some u /\ u <> ""
             /\ startswith "http" (strip u) = true)
  /\ ((5 # 10 < reading_time p)%Q \/ 100 < content_length p).

(** [p] stands before [q] in the ranking: more reading time, or as much
    and at least as long a content. *)
Definition ranks_before (p q : PageVisit) : Prop :=
  (reading_time q < reading_time p)%Q
  \/ ((reading_time q == reading_time p)%Q
      /\ content_length q <= content_length p).

(** [p] stands strictly before [q]: more reading time, or as much and a
    longer content. *)
Definition outranks (p q : PageVisit) : Prop :=
  (reading_time q < reading_time p)%Q
  \/ ((reading_time q == reading_time p)%Q
      /\ content_length q < content_length p).

(** Two pages tie on both sort keys. *)
Definition same_rank (p q : PageVisit) : bool :=
  Qeq_bool (reading_time p) (reading_time q)
  && (content_length p =? content_length q).

(** The first occurrence of every deduplication key not seen before. *)
Fixpoint first_occurrences (seen : list string) (l : list PageVisit)
  : list PageVisit :=
  match l with
  | [] => []
  | p :: l' =>
      if mem (dedup_key p) seen then first_occurrences seen l'
      else p :: first_occurrences (set_add (dedup_key p) seen) l'
  end.

(** The estimated cost of a list of blocks. *)
Definition tokens_of (blocks : list string) : Q :=
  fold_right (fun b acc => (page_tokens b + acc)%Q) 0%Q blocks.

(** The blocks of all the pages, in the order of the budgeter. *)
Definition all_blocks `{Runtime} (data : BrowsingRecord) : list string :=
  map page_text (sorted timestamp_le (get (data_pages data) [])).

(* ================================================================== *)
(** ** Sample inputs *)

Definition dq : string := String (ascii_of_nat 34) "".
Definition tab : string := String (ascii_of_nat 9) "".

(** A record whose [date] key carries a trailing space, one whose key
    carries a trailing tab, and a clean one. *)
Definition sample_spaced : json :=
  JDict [("date ", JStr "2026-02-06 "); ("pages", JList [])].

Definition sample_tabbed : json :=
  JDict [("date" ++ tab, JStr "2026-02-06"); ("pages", JList [])]%string.

Definition sample_clean : json :=
  JDict [("date", JStr "2026-02-06");
         ("pages", JList [JDict [("url", JStr "http://a.example/")]])].

(** A run-time library for the samples: its [json.loads] knows the
    three texts that name the sample records. *)
Definition sample_runtime : Runtime := {|
  json_loads := fun raw =>
    if (raw =? "spaced")%string then inl sample_spaced
    else if (raw =? "tabbed")%string then inl sample_tabbed
    else if (raw =? "clean")%string then inl sample_clean
    else inr "Expecting value";
  json_dump := fun obj =>
    match obj with
    | JDict (("date", JStr d) :: _) => ("date=" ++ d)%string
    | _ => "?"
    end;
  fromisoformat := fun _ => None;
  str_num := fun q =>
    (pad2 (Z.to_nat (Qnum q / Zpos (Qden q))))%string
|}.

Definition noon : DateTime := mkDateTime 2025 1 19 12 0 0.

Definition sample_world (name raw : string) (fl : list (option nat))
  : World :=
  mkWorld (fun q => if (q =? name)%string then Some raw else None)
          noon fl [].

Definition sample_page (u t d c : string) (ts : string) (rt : Q)
  : PageVisit :=
  mkPage (Some u) (Some t) (Some d) (Some c) (Some ts) (Some rt).

Definition filler (n : nat) : string := String.concat "" (repeat "x" n).

(** A page nobody read, with 50 characters of content; a page read for
    0.6 minutes, with no content. *)
Definition sample_idle : PageVisit :=
  sample_page "http://idle.example/" "Idle" "idle.example" (filler 50)
              "2025-01-19T09:00:00Z" 0.

Definition sample_brief : PageVisit :=
  sample_page "https://brief.example/" "Brief" "brief.example" ""
              "2025-01-19T08:00:00Z" (6 # 10).

(** Two pages of one domain and title, apart in URL and reading time. *)
Definition sample_more : PageVisit :=
  sample_page "http://news.example/a" " Same Headline" "News.example"
              (filler 120) "2025-01-19T10:00:00Z" 7.

Definition sample_less : PageVisit :=
  sample_page "http://news.example/b" " Same Headline" "News.example"
              (filler 120) "2025-01-19T11:00:00Z" 3.

(** Three pages with reading times 10, 10, 5 and content lengths 20, 50,
    100. *)
Definition sample_p0 : PageVisit :=
  sample_page "http://a.example/" "A" "a.example" (filler 20)
              "2025-01-19T12:00:00Z" 10.

Definition sample_p1 : PageVisit :=
  sample_page "http://b.example/" "B" "b.example" (filler 50)
              "2025-01-19T07:00:00Z" 10.

Definition sample_p2 : PageVisit :=
  sample_page "http://c.example/" "C" "c.example" (filler 100)
              "2025-01-19T07:30:00Z" 5.

Definition sample_record (pages : list PageVisit) : BrowsingRecord :=
  mkRecord (Some "2025-01-19") (Some pages) None.

Definition sample_stats : Stats := mkStats 3 25.

Definition minute_later : DateTime := mkDateTime 2025 1 19 12 1 0.
Definition seconds_later : DateTime := mkDateTime 2025 1 19 12 0 30.

Definition clock_world (now : DateTime) : World :=
  mkWorld (fun _ => None) now [] [].

(** A top-level sequence holding a mapping with a spaced key, and a
    run-time library that also reads back what it dumps for the repaired
    sample. *)
Definition sample_listed : json := JList [JDict [("url ", JNull)]].

Definition sample_repaired : json :=
  JDict [("date", JStr "2026-02-06"); ("pages", JList [])].

Definition sample_runtime_rt : Runtime := {|
  json_loads := fun raw =>
    if (raw =? "spaced")%string then inl sample_spaced
    else if (raw =? "listed")%string then inl sample_listed
    else if (raw =? "date=2026-02-06")%string then inl sample_repaired
    else inr "Expecting value";
  json_dump := fun obj =>
    match obj with
    | JDict (("date", JStr d) :: _) => ("date=" ++ d)%string
    | _ => "?"
    end;
  fromisoformat := fun _ => None;
  str_num := fun _ => "0"
|}.

(* ================================================================== *)
(** ** The appendix: [append_top_pages_section] *)



Definition backslash : ascii := ascii_of_nat 92.

(** The chain of [replace] calls on the title. *)
Definition escape_title (title : string) : string :=
  replace_char ">" "&gt;"
    (replace_char "<" "&lt;"
       (replace_char ")" (String backslash ")")
          (replace_char "(" (String backslash "(")
             (replace_char "]" (String backslash "]")
                (replace_char "[" (String backslash "[") title))))).





(** A bracket that the title escaping is to guard. *)
Definition is_bracket (c : ascii) : bool :=
  Ascii.eqb c "[" || Ascii.eqb c "]" || Ascii.eqb c "(" || Ascii.eqb c ")".

(** Some bracket of the string does not follow a backslash
    immediately. *)
Fixpoint bare_bracket (after_backslash : bool) (s : string) : bool :=
  match s with
  | "" => false
  | String c s' =>
      (is_bracket c && negb after_backslash)
      || bare_bracket (Ascii.eqb c backslash) s'
  end.



(* ================================================================== *)
(** ** The default output path of [main] *)

(** [str.isalnum] of one character below 256: digits, letters, and of
    the upper half the letters, the superscript digits and the
    fractions. *)
Definition isalnum (c : ascii) : bool :=
  let n := nat_of_ascii c in
  ((48 <=? n) && (n <=? 57)) || ((65 <=? n) && (n <=? 90))
  || ((97 <=? n) && (n <=? 122))
  || (n =? 170) || (n =? 178) || (n =? 179) || (n =? 181)
  || (n =? 185) || (n =? 186) || ((188 <=? n) && (n <=? 190))
  || ((192 <=? n) && (n <=? 214)) || ((216 <=? n) && (n <=? 246))
  || ((248 <=? n) && (n <=? 255)).

(** [c if c.isalnum() or c in "-_" else "-"] *)
Definition safe_char (c : ascii) : ascii :=
  if isalnum c || has_char c "-_" then c else "-"%char.

(** ["".join(... for c in str(date))] *)
Fixpoint safe_date (date : string) : string :=
  match date with
  | "" => ""
  | String c rest => String (safe_char c) (safe_date rest)
  end.

(** [f"digest-{safe_date}.md"] *)
Definition default_output_path (date : string) : string :=
  ("digest-" ++ safe_date date ++ ".md")%string.

(* ================================================================== *)
(** ** The reply of the server: the end of [call_llama_cpp_api] *)

(** What the function ends with: the content it returns, the
    [RuntimeError] it raises, or an exception of another class raised
    by an operation on a value of the wrong type, which none of its
    [except] clauses catches. *)
Inductive api_result : Type :=
| ApiContent (content : string)
| ApiRuntimeError (msg : string)
| ApiUncaught (class : string).

(** [bool(v)] of a JSON value *)
Definition json_truthy (v : json) : bool :=
  match v with
  | JNull => false
  | JBool b => b
  | JNum q => negb (Qeq_bool q 0)
  | JStr s => truthy s
  | JList items => match items with [] => false | _ => true end
  | JDict items => match items with [] => false | _ => true end
  end.

(** [sub in s] on strings *)
Definition contains (sub s : string) : bool :=
  match String.index 0 sub s with
  | Some _ => true
  | None => false
  end.

Definition is_str (s : string) (v : json) : bool :=
  match v with
  | JStr t => (t =? s)%string
  | _ => false
  end.

Definition missing_choices : api_result :=
  ApiRuntimeError "Unexpected API response format: missing 'choices'".

(** From [result = response.json()] to the [return]. *)
Definition completion_content (result : json) : api_result :=
  match result with
  | JDict items =>
      match dict_get "choices" items with
      | None => missing_choices
      | Some choices =>
          if negb (json_truthy choices) then missing_choices
          else
            match choices with
            | JList (first :: _) =>
                match first with
                | JDict fields =>
                    match get (dict_get "message" fields) (JDict []) with
                    | JDict message =>
                        match get (dict_get "content" message) (JStr "")
                        with
                        | JStr text =>
                            let content := strip text in
                            if negb (truthy content)
                            then ApiRuntimeError
                                   "Received empty response from model"
                            else ApiContent content
                        | _ => ApiUncaught "AttributeError"
                        end
                    | _ => ApiUncaught "AttributeError"
                    end
                | _ => ApiUncaught "AttributeError"
                end
            | JStr _ => ApiUncaught "AttributeError"
            | JDict _ => ApiUncaught "KeyError"
            | _ => ApiUncaught "TypeError"
            end
      end
  | JList items =>
      if existsb (is_str "choices") items then ApiUncaught "TypeError"
      else missing_choices
  | JStr s =>
      if contains "choices" s then ApiUncaught "TypeError"
      else missing_choices
  | _ => ApiUncaught "TypeError"
  end.

Definition sample_reply (text : string) : json :=
  JDict [("choices",
          JList [JDict [("message",
                         JDict [("role", JStr "assistant");
                                ("content", JStr text)])]])].
(* ================================================================== *)
(** * Facts *)

(** ** Strings *)

Lemma mem_In (k : string) (s : list string) : mem k s = true <-> In k s.
Proof.
  unfold mem. rewrite existsb_exists. split.
  - intros (x & Hx & E). apply String.eqb_eq in E. now subst.
  - intro H. exists k. split; [assumption | apply String.eqb_refl].
Qed.

Lemma mem_false (k : string) (s : list string) :
  mem k s = false <-> ~ In k s.
Proof.
  rewrite <- mem_In. destruct (mem k s); split; congruence.
Qed.

Lemma lstrip_idem (s : string) : lstrip (lstrip s) = lstrip s.
Proof.
  induction s as [|c s IH]; simpl; [reflexivity|].
  destruct (isspace c) eqn:E; [assumption|]. simpl. now rewrite E.
Qed.

Lemma rstrip_idem (s : string) : rstrip (rstrip s) = rstrip s.
Proof.
  induction s as [|c s IH]; simpl; [reflexivity|].
  destruct (rstrip s) as [|a r] eqn:E.
  - destruct (isspace c) eqn:Ec; simpl; [reflexivity | now rewrite Ec].
  - change (rstrip (String c (String a r))) with
      (match rstrip (String a r) with
       | "" => if isspace c then "" else String c ""
       | String x y => String c (String x y)
       end).
    now rewrite IH.
Qed.

Lemma rstrip_cons_fixed (c : ascii) (s : string) :
  rstrip (String c s) = String c s ->
  (s = "" /\ isspace c = false) \/ (s <> "" /\ rstrip s = s).
Proof.
  simpl. destruct (rstrip s) as [|a r] eqn:E.
  - destruct (isspace c) eqn:Ec; intro H; [discriminate|].
    injection H as H. left. now split.
  - intro H. injection H as H. right. split; [|assumption].
    rewrite <- H. discriminate.
Qed.

Lemma rstrip_lstrip_fixed (t : string) :
  rstrip t = t -> rstrip (lstrip t) = lstrip t.
Proof.
  induction t as [|c t IH]; intro H; [reflexivity|].
  simpl lstrip. destruct (isspace c) eqn:Ec; [|assumption].
  destruct (rstrip_cons_fixed _ _ H) as [[_ F]|[_ F]]; [congruence|].
  now apply IH.
Qed.

Lemma strip_idem (s : string) : strip (strip s) = strip s.
Proof.
  unfold strip.
  rewrite (rstrip_lstrip_fixed (rstrip s) (rstrip_idem s)).
  apply lstrip_idem.
Qed.

Lemma leading_ws_lstrip (s : string) : leading_ws (lstrip s) = false.
Proof.
  induction s as [|c s IH]; simpl; [reflexivity|].
  destruct (isspace c) eqn:E; [assumption | simpl; assumption].
Qed.

Lemma lstrip_fixed_iff (s : string) :
  lstrip s = s <-> leading_ws s = false.
Proof.
  split.
  - intro H. rewrite <- H. apply leading_ws_lstrip.
  - destruct s as [|c s]; simpl; [reflexivity|]. now intros ->.
Qed.

Lemma rstrip_fixed_iff (s : string) :
  rstrip s = s <-> trailing_ws s = false.
Proof.
  induction s as [|c s IH]; [simpl; tauto|].
  split.
  - intro H. destruct (rstrip_cons_fixed _ _ H) as [[-> F]|[N F]].
    + exact F.
    + destruct s as [|a s]; [congruence|].
      change (trailing_ws (String a s) = false). now apply IH.
  - intro H. destruct s as [|a s].
    + simpl in *. now rewrite H.
    + change (trailing_ws (String a s) = false) in H.
      apply IH in H.
      change (rstrip (String c (String a s))) with
        (match rstrip (String a s) with
         | "" => if isspace c then "" else String c ""
         | String x y => String c (String x y)
         end).
      now rewrite H.
Qed.

Lemma strip_fixed_iff (s : string) :
  strip s = s <-> surrounding_ws s = false.
Proof.
  unfold surrounding_ws. rewrite orb_false_iff.
  rewrite <- lstrip_fixed_iff, <- rstrip_fixed_iff. unfold strip. split.
  - intro H.
    assert (R : rstrip s = s).
    { rewrite <- H at 1.
      rewrite (rstrip_lstrip_fixed _ (rstrip_idem s)). exact H. }
    split; [|exact R]. now rewrite R in H.
  - intros [L R]. now rewrite R.
Qed.

Lemma surrounding_ws_strip (s : string) : surrounding_ws (strip s) = false.
Proof. apply strip_fixed_iff, strip_idem. Qed.

Lemma startswith_space (k : string) :
  startswith " " k = true -> leading_ws k = true.
Proof.
  unfold startswith. intro H. apply prefix_correct in H.
  destruct k as [|c k]; [discriminate|].
  simpl in H. injection H as -> _. reflexivity.
Qed.

Lemma endswith_space (k : string) :
  endswith " " k = true -> trailing_ws k = true.
Proof.
  induction k as [|c k IH]; [discriminate|].
  cbn [endswith]. rewrite orb_true_iff. intros [H|H].
  - apply String.eqb_eq in H. now rewrite H.
  - destruct k as [|a k]; [discriminate|].
    change (trailing_ws (String a k) = true). now apply IH.
Qed.

Lemma space_test_ws (k : string) :
  startswith " " k || endswith " " k = true -> surrounding_ws k = true.
Proof.
  unfold surrounding_ws. rewrite !orb_true_iff.
  intros [H|H]; [left; now apply startswith_space
                | right; now apply endswith_space].
Qed.

(** ** Induction on JSON values *)

Lemma json_induction (P : json -> Prop) :
  P JNull -> (forall b, P (JBool b)) -> (forall q, P (JNum q)) ->
  (forall s, P (JStr s)) ->
  (forall items, Forall P items -> P (JList items)) ->
  (forall items, Forall (fun kv => P (snd kv)) items -> P (JDict items)) ->
  forall obj, P obj.
Proof.
  intros HNull HBool HNum HStr HList HDict.
  fix IH 1. intros [ |b|q|s|items|items].
  - exact HNull.
  - apply HBool.
  - apply HNum.
  - apply HStr.
  - apply HList. induction items as [|x l IHl]; constructor;
      [apply IH | exact IHl].
  - apply HDict. induction items as [|kv l IHl]; constructor;
      [apply IH | exact IHl].
Qed.

(** ** Insertion-ordered dicts *)

Lemma mem_app (k : string) (l1 l2 : list string) :
  mem k (l1 ++ l2) = mem k l1 || mem k l2.
Proof. unfold mem. apply existsb_app. Qed.

Lemma nodupb_snoc (l : list string) (k : string) :
  nodupb l = true -> mem k l = false -> nodupb (l ++ [k]) = true.
Proof.
  induction l as [|x l IH]; simpl; [reflexivity|].
  rewrite andb_true_iff, negb_true_iff, orb_false_iff.
  intros [Hx Hl] [Hk Hkl].
  rewrite mem_app, Hx, (IH Hl Hkl). simpl.
  rewrite String.eqb_sym, Hk. reflexivity.
Qed.

Section DictSet.
Context {V : Type}.
Implicit Types (d : list (string * V)) (k : string) (v : V).

Lemma dict_set_fresh k v d :
  mem k (dict_keys d) = false -> dict_set k v d = d ++ [(k, v)].
Proof.
  induction d as [|[k' v'] d IH]; simpl; [reflexivity|].
  rewrite orb_false_iff. intros [-> H]. now rewrite IH.
Qed.

Lemma dict_set_keys k v d :
  dict_keys (dict_set k v d)
  = if mem k (dict_keys d) then dict_keys d else dict_keys d ++ [k].
Proof.
  induction d as [|[k' v'] d IH]; simpl; [reflexivity|].
  destruct (k =? k')%string; simpl; [reflexivity|].
  rewrite IH. now destruct (mem k (dict_keys d)).
Qed.

Lemma dict_set_nodup k v d :
  nodupb (dict_keys d) = true -> nodupb (dict_keys (dict_set k v d)) = true.
Proof.
  intro H. rewrite dict_set_keys.
  destruct (mem k (dict_keys d)) eqn:E; [assumption|].
  now apply nodupb_snoc.
Qed.

Lemma dict_set_Forall (Q : string * V -> Prop) k v d :
  Q (k, v) -> Forall Q d -> Forall Q (dict_set k v d).
Proof.
  intros Hk. induction 1 as [|[k' v'] d Hx Hd IH]; simpl.
  - now constructor.
  - destruct (k =? k')%string eqn:E.
    + apply String.eqb_eq in E. subst k'. now constructor.
    + now constructor.
Qed.

End DictSet.

(** ** [normalize_json_keys] *)

Local Abbreviation norm_step :=
  (fun acc kv =>
     if truthy (strip (fst kv))
     then dict_set (strip (fst kv)) (normalize_json_keys (snd kv)) acc
     else acc).

Lemma norm_fold_nodup (items acc : list (string * json)) :
  nodupb (dict_keys acc) = true ->
  nodupb (dict_keys (fold_left norm_step items acc)) = true.
Proof.
  revert acc. induction items as [|kv items IH]; intros acc H; simpl;
    [assumption|].
  apply IH. destruct (truthy (strip (fst kv))); [|assumption].
  now apply dict_set_nodup.
Qed.

Lemma norm_fold_Forall (Q : string * json -> Prop)
  (items acc : list (string * json)) :
  Forall (fun kv => truthy (strip (fst kv)) = true ->
                    Q (strip (fst kv), normalize_json_keys (snd kv))) items ->
  Forall Q acc -> Forall Q (fold_left norm_step items acc).
Proof.
  intro H. revert acc. induction H as [|kv items Hkv _ IH]; intros acc Ha;
    simpl; [assumption|].
  apply IH. destruct (truthy (strip (fst kv))) eqn:E; [|assumption].
  apply dict_set_Forall; auto.
Qed.

(** On a dict that is normalized already the comprehension rebuilds the
    dict entry by entry. *)
Lemma norm_fold_fixed (items acc : list (string * json)) :
  Forall (fun kv => strip (fst kv) = fst kv /\ truthy (fst kv) = true
                    /\ normalize_json_keys (snd kv) = snd kv) items ->
  nodupb (dict_keys (acc ++ items)) = true ->
  fold_left norm_step items acc = acc ++ items.
Proof.
  intro H. revert acc.
  induction H as [|[k v] items (Hs & Ht & Hn) _ IH]; intros acc Hnd;
    simpl.
  - now rewrite app_nil_r.
  - simpl in Hs, Ht, Hn. rewrite Hs, Ht, Hn.
    assert (F : mem k (dict_keys acc) = false).
    { clear - Hnd. unfold dict_keys in *. rewrite map_app in Hnd.
      simpl in Hnd. induction acc as [|[a b] acc IHa]; [reflexivity|].
      simpl in *. apply andb_true_iff in Hnd as [Ha Hnd].
      rewrite (IHa Hnd), orb_false_r.
      apply negb_true_iff in Ha. rewrite mem_app in Ha.
      apply orb_false_iff in Ha as [_ Ha]. simpl in Ha.
      apply orb_false_iff in Ha as [Ha _].
      now rewrite String.eqb_sym. }
    rewrite (dict_set_fresh _ _ _ F).
    rewrite IH; rewrite <- app_assoc; [reflexivity | exact Hnd].
Qed.

Lemma normalize_normalized (obj : json) :
  normalized (normalize_json_keys obj) = true.
Proof.
  induction obj as [ |b|q|s|items IH|items IH] using json_induction;
    try reflexivity.
  - simpl. now rewrite surrounding_ws_strip.
  - simpl. rewrite forallb_forall. intros x Hx.
    apply in_map_iff in Hx as (y & <- & Hy).
    rewrite Forall_forall in IH. now apply IH.
  - cbn [normalize_json_keys normalized].
    rewrite forallb_forall. apply Forall_forall.
    apply norm_fold_Forall; [|constructor].
    rewrite Forall_forall in IH. apply Forall_forall. intros kv Hkv Ht.
    cbn [fst snd]. rewrite surrounding_ws_strip, Ht, (IH kv Hkv).
    reflexivity.
Qed.

Lemma normalize_dict_wf (obj : json) :
  dict_wf (normalize_json_keys obj) = true.
Proof.
  induction obj as [ |b|q|s|items IH|items IH] using json_induction;
    try reflexivity.
  - simpl. rewrite forallb_forall. intros x Hx.
    apply in_map_iff in Hx as (y & <- & Hy).
    rewrite Forall_forall in IH. now apply IH.
  - cbn [normalize_json_keys dict_wf]. apply andb_true_iff. split.
    + now apply norm_fold_nodup.
    + rewrite forallb_forall. apply Forall_forall.
      apply norm_fold_Forall; [|constructor].
      rewrite Forall_forall in IH. apply Forall_forall. intros kv Hkv _.
      now apply IH.
Qed.

Lemma normalize_fixed (obj : json) :
  normalized obj = true -> dict_wf obj = true ->
  normalize_json_keys obj = obj.
Proof.
  induction obj as [ |b|q|s|items IH|items IH] using json_induction;
    try reflexivity.
  - simpl. intros H _. apply negb_true_iff in H.
    f_equal. now apply strip_fixed_iff.
  - simpl. intros Hn Hw. f_equal.
    rewrite forallb_forall in Hn, Hw. rewrite Forall_forall in IH.
    rewrite <- (map_id items) at 2. apply map_ext_in.
    intros x Hx. now apply IH; [|apply Hn|apply Hw].
  - cbn [normalize_json_keys normalized dict_wf]. intros Hn Hw.
    apply andb_true_iff in Hw as [Hnd Hw]. f_equal.
    rewrite forallb_forall in Hn, Hw. rewrite Forall_forall in IH.
    apply (norm_fold_fixed items []); [|exact Hnd].
    apply Forall_forall. intros kv Hkv.
    specialize (Hn kv Hkv). specialize (Hw kv Hkv).
    apply andb_true_iff in Hn as [Hn Hv].
    apply andb_true_iff in Hn as [Hs Ht].
    apply negb_true_iff in Hs.
    repeat split; [now apply strip_fixed_iff | exact Ht | now apply IH].
Qed.

Lemma normalize_idem (obj : json) :
  normalize_json_keys (normalize_json_keys obj) = normalize_json_keys obj.
Proof.
  apply normalize_fixed; [apply normalize_normalized | apply normalize_dict_wf].
Qed.

(** ** [_collect_keys] and the detection test *)

Lemma set_add_In (x k : string) (s : list string) :
  In x (set_add k s) <-> x = k \/ In x s.
Proof.
  unfold set_add. destruct (mem k s) eqn:E.
  - apply mem_In in E. split; [auto|]. intros [->|H]; assumption.
  - rewrite in_app_iff. simpl. intuition.
Qed.

Lemma collect_keys_In (obj : json) :
  forall keys k,
    In k (_collect_keys obj keys) <-> In k keys \/ In k (all_keys obj).
Proof.
  induction obj as [ |b|q|s|items IH|items IH] using json_induction;
    intros keys k; try (simpl; tauto).
  - cbn [_collect_keys all_keys]. revert keys.
    induction IH as [|x l Hx _ IHl]; intro keys; simpl; [tauto|].
    rewrite IHl, Hx, in_app_iff. tauto.
  - cbn [_collect_keys all_keys]. revert keys.
    induction IH as [|[a v] l Hx _ IHl]; intro keys; simpl; [tauto|].
    simpl in Hx. rewrite IHl, Hx, set_add_In, in_app_iff.
    intuition.
Qed.

(** The test looks at every key of every depth, and at nothing else. *)
Lemma needs_repair_iff (data : json) :
  needs_repair data = true <->
  exists k, In k (all_keys data)
            /\ (startswith " " k = true \/ endswith " " k = true).
Proof.
  unfold needs_repair. rewrite existsb_exists.
  split; intros (k & Hk & Ht); exists k.
  - apply collect_keys_In in Hk as [[]|Hk].
    split; [assumption | now apply orb_true_iff].
  - split; [apply collect_keys_In; now right | now apply orb_true_iff].
Qed.

Lemma normalized_keys (obj : json) :
  normalized obj = true ->
  forall k, In k (all_keys obj) -> surrounding_ws k = false.
Proof.
  induction obj as [ |b|q|s|items IH|items IH] using json_induction;
    intros Hn k Hk; try (now destruct Hk).
  - cbn [normalized all_keys] in *. rewrite forallb_forall in Hn.
    rewrite Forall_forall in IH.
    apply in_flat_map in Hk as (x & Hx & Hk). eauto.
  - cbn [normalized all_keys] in *. rewrite forallb_forall in Hn.
    rewrite Forall_forall in IH.
    apply in_flat_map in Hk as (kv & Hkv & Hk).
    specialize (Hn kv Hkv).
    apply andb_true_iff in Hn as [Hn Hv].
    apply andb_true_iff in Hn as [Hs _]. apply negb_true_iff in Hs.
    destruct Hk as [<-|Hk]; [assumption | eauto].
Qed.

Lemma needs_repair_normalized (obj : json) :
  normalized obj = true -> needs_repair obj = false.
Proof.
  intro Hn. destruct (needs_repair obj) eqn:E; [|reflexivity].
  apply needs_repair_iff in E as (k & Hk & Ht).
  pose proof (normalized_keys obj Hn k Hk) as F.
  rewrite (space_test_ws k) in F; [discriminate|].
  now apply orb_true_iff.
Qed.

(** ** [load_browsing_data] *)

Lemma length_append (s t : string) :
  String.length (s ++ t) = String.length s + String.length t.
Proof. induction s as [|c s IH]; simpl; [reflexivity | now rewrite IH]. Qed.

Lemma length_lower (s : string) : String.length (lower s) = String.length s.
Proof. induction s as [|c s IH]; simpl; [reflexivity | now rewrite IH]. Qed.

Lemma length_substring (n : nat) (s : string) :
  n <= String.length s -> String.length (substring 0 n s) = n.
Proof.
  revert n. induction s as [|c s IH]; intros [|n] Hn; simpl in *;
    try reflexivity; try lia.
  rewrite IH; lia.
Qed.

(** The backup of a [.json] path is another path. *)
Lemma backup_path_differs (p : string) :
  lower (path_suffix p) = ".json" -> with_suffix p ".json.bak" <> p.
Proof.
  intros Hs E. apply (f_equal String.length) in E, Hs.
  rewrite length_lower in Hs. simpl in Hs.
  unfold with_suffix in E. rewrite length_append, Hs in E.
  rewrite length_substring in E by lia. simpl in E. lia.
Qed.

Ltac run_load :=
  unfold load_browsing_data, bind, path_exists, read_text, copy2,
    write_text, print, next_fault, raise, ret, log, fs_set; simpl.

(** Find the place of a write in a trace that is known event by event. *)
Ltac place_write Ht pre :=
  repeat (destruct pre as [|? pre]; simpl in Ht;
          [ first [ discriminate Ht | injection Ht; intros; subst ]
          | first [ discriminate Ht | injection Ht as ? Ht; subst ] ]).

Ltac settle_validation :=
  repeat match goal with
    | |- context [match ?d with JNull => _ | _ => _ end] => destruct d; simpl
    | |- context [mem ?k ?l] => destruct (mem k l); simpl
    end.

Section Load.
Context `{Runtime}.

Lemma load_missing (filepath : string) (w : World) :
  fs w filepath = None ->
  load_browsing_data filepath w
  = (Raise (FileNotFoundError filepath), log (EvExists filepath) w).
Proof.
  intro E. unfold load_browsing_data, bind, path_exists. now rewrite E.
Qed.

Lemma load_bad_suffix (filepath raw : string) (w : World) :
  fs w filepath = Some raw ->
  lower (path_suffix filepath) <> ".json" ->
  load_browsing_data filepath w
  = (Raise (ValueError (ExpectedJsonFile (path_suffix filepath))),
     log (EvExists filepath) w).
Proof.
  intros E Hs. unfold load_browsing_data, bind, path_exists. rewrite E.
  apply String.eqb_neq in Hs. now rewrite Hs.
Qed.




(** The runs of [load_browsing_data], by the effects they perform: the
    probe alone; probe and read; these and the announcement, when the
    backup fails; or all up to the write, with the backup made. *)
Lemma load_runs (filepath : string) (w : World) (r : outcome json)
  (w' : World) :
  let bak := with_suffix filepath ".json.bak" in
  load_browsing_data filepath w = (r, w') ->
  (fs w' = fs w /\
   (trace w' = trace w ++ [EvExists filepath]
    \/ trace w' = trace w ++ [EvExists filepath; EvRead filepath]
    \/ exists m, trace w' = trace w ++ [EvExists filepath; EvRead filepath;
                                        EvPrint m]))
  \/ (exists raw m1 m2 c tl,
        fs w filepath = Some raw
        /\ lower (path_suffix filepath) = ".json"
        /\ trace w' = trace w ++ [EvExists filepath; EvRead filepath;
                                  EvPrint m1; EvCopy filepath bak;
                                  EvPrint m2; EvWrite filepath c] ++ tl
        /\ (tl = [] \/ exists m3, tl = [EvPrint m3])
        /\ fs w' = (fun q => if (q =? filepath)%string then Some c
                             else if (q =? bak)%string then Some raw
                             else fs w q)).
Proof.
  intros bak. run_load.
  destruct (fs w filepath) as [raw|] eqn:Efs; simpl;
    [|intros [= <- <-]; left; simpl; auto].
  destruct (lower (path_suffix filepath) =? ".json")%string eqn:Esuf; simpl;
    [|intros [= <- <-]; left; simpl; auto].
  apply String.eqb_eq in Esuf.
  destruct (faults w) as [|[n|] fl] eqn:Ef; simpl; rewrite ?Efs;
    [| intros [= <- <-]; left; simpl; auto |].
  - (* no fault is scheduled *)
    destruct (json_loads raw) as [data|e]; simpl;
      [|intros [= <- <-]; left; simpl; rewrite <- app_assoc; auto].
    destruct (needs_repair data); simpl; rewrite ?Ef, ?Efs; simpl;
      rewrite ?Ef; simpl.
    + settle_validation; intros [= <- <-]; right; simpl;
        repeat rewrite <- app_assoc; simpl;
        do 4 eexists; exists [EvPrint ("   Repaired JSON saved to: "
                                       ++ path_name filepath)];
        (split; [reflexivity|]); (split; [assumption|]);
        (split; [reflexivity|]); (split; [right; eauto | reflexivity]).
    + settle_validation; intros [= <- <-]; left; simpl;
        rewrite <- app_assoc; auto.
  - (* the read succeeds *)
    destruct (json_loads raw) as [data|e]; simpl;
      [|intros [= <- <-]; left; simpl; rewrite <- app_assoc; auto].
    destruct (needs_repair data); simpl; rewrite ?Efs; simpl.
    + destruct fl as [|[n|] fl]; simpl; rewrite ?Efs; simpl.
      * settle_validation; intros [= <- <-]; right; simpl;
          repeat rewrite <- app_assoc; simpl;
          do 4 eexists; exists [EvPrint ("   Repaired JSON saved to: "
                                         ++ path_name filepath)];
          (split; [reflexivity|]); (split; [assumption|]);
          (split; [reflexivity|]); (split; [right; eauto | reflexivity]).
      * intros [= <- <-]; left; simpl. repeat rewrite <- app_assoc.
        simpl. eauto.
      * destruct fl as [|[n|] fl]; simpl.
        -- settle_validation; intros [= <- <-]; right; simpl;
             repeat rewrite <- app_assoc; simpl;
             do 4 eexists; exists [EvPrint ("   Repaired JSON saved to: "
                                            ++ path_name filepath)];
             (split; [reflexivity|]); (split; [assumption|]);
             (split; [reflexivity|]); (split; [right; eauto | reflexivity]).
        -- intros [= <- <-]; right; simpl;
             repeat rewrite <- app_assoc; simpl;
             do 4 eexists; exists [];
             (split; [reflexivity|]); (split; [assumption|]);
             (split; [reflexivity|]); (split; [left | ]); reflexivity.
        -- settle_validation; intros [= <- <-]; right; simpl;
             repeat rewrite <- app_assoc; simpl;
             do 4 eexists; exists [EvPrint ("   Repaired JSON saved to: "
                                            ++ path_name filepath)];
             (split; [reflexivity|]); (split; [assumption|]);
             (split; [reflexivity|]); (split; [right; eauto | reflexivity]).
    + settle_validation; intros [= <- <-]; left; simpl;
        rewrite <- app_assoc; auto.
Qed.

(** The run that finds nothing to repair. *)
Lemma load_no_repair (filepath raw : string) (data : json) (w : World) :
  fs w filepath = Some raw ->
  lower (path_suffix filepath) = ".json" ->
  faults w = [] ->
  json_loads raw = inl data ->
  needs_repair data = false ->
  exists r,
    load_browsing_data filepath w
    = (r, mkWorld (fs w) (clock w) []
                  (trace w ++ [EvExists filepath; EvRead filepath]))
    /\ (forall items, data = JDict items ->
          mem "date" (dict_keys items) = true ->
          mem "pages" (dict_keys items) = true -> r = Return data)
    /\ (forall items, data = JDict items ->
          mem "date" (dict_keys items) = false ->
          exists missing,
            r = Raise (ValueError
                         (MissingRequiredKeys missing (dict_keys items)))
            /\ In "date" missing).
Proof.
  intros Efs Esuf Ef Ej En. apply String.eqb_eq in Esuf.
  destruct (load_browsing_data filepath w) as [r w'] eqn:E.
  revert E. run_load. rewrite Efs. simpl. rewrite Esuf. simpl.
  rewrite Ef. simpl. rewrite Efs. simpl. rewrite Ej. simpl.
  rewrite En. simpl.
  rewrite <- app_assoc. simpl.
  destruct data as [ |b|q|s|items|items]; simpl;
    try (intros [= <- <-]; eexists; split;
         [reflexivity | split; discriminate]).
  destruct (mem "date" (dict_keys items)) eqn:Ed;
    destruct (mem "pages" (dict_keys items)) eqn:Ep; simpl;
    intros [= <- <-]; (eexists; split; [reflexivity|]);
    (split; intros ? [= <-] ?; try congruence; intros);
    try reflexivity;
    (eexists; split; [reflexivity | simpl; auto]).
Qed.

(** The run that repairs, when no operation fails. *)
Lemma load_repair (filepath raw : string) (data : json) (w : World) :
  fs w filepath = Some raw ->
  lower (path_suffix filepath) = ".json" ->
  faults w = [] ->
  json_loads raw = inl data ->
  needs_repair data = true ->
  let bak := with_suffix filepath ".json.bak" in
  let repaired := normalize_json_keys data in
  exists r w',
    load_browsing_data filepath w = (r, w')
    /\ trace w'
       = trace w ++
         [EvExists filepath; EvRead filepath;
          EvPrint "⚠️  Malformed JSON detected - repairing keys/values...";
          EvCopy filepath bak;
          EvPrint ("   Original saved as: " ++ path_name bak);
          EvWrite filepath (json_dump repaired);
          EvPrint ("   Repaired JSON saved to: " ++ path_name filepath)]
    /\ fs w' bak = Some raw
    /\ fs w' filepath = Some (json_dump repaired)
    /\ (forall items, repaired = JDict items ->
          mem "date" (dict_keys items) = true ->
          mem "pages" (dict_keys items) = true -> r = Return repaired).
Proof.
  intros Efs Esuf Ef Ej En bak repaired.
  pose proof (backup_path_differs filepath Esuf) as Hb.
  apply String.eqb_neq in Hb. fold bak in Hb.
  apply String.eqb_eq in Esuf.
  destruct (load_browsing_data filepath w) as [r w'] eqn:E.
  exists r, w'. split; [reflexivity|].
  revert E. run_load. rewrite Efs. simpl. rewrite Esuf. simpl.
  rewrite Ef. simpl. rewrite Efs. simpl. rewrite Ej. simpl.
  rewrite En. simpl.
  repeat (rewrite ?Ef, ?Efs; simpl).
  fold bak. fold repaired.
  destruct repaired as [ |b|q|s|items|items] eqn:Er; simpl;
    try (intros [= <- <-]; simpl;
         repeat rewrite <- app_assoc; simpl;
         rewrite String.eqb_refl, Hb, String.eqb_refl;
         repeat split; discriminate).
  destruct (mem "date" (dict_keys items)) eqn:Ed;
    destruct (mem "pages" (dict_keys items)) eqn:Ep; simpl;
    intros [= <- <-]; simpl;
    repeat rewrite <- app_assoc; simpl;
    rewrite String.eqb_refl, Hb, String.eqb_refl;
    repeat split; intros ? [= <-]; congruence.
Qed.

End Load.

(** ** The stable sort *)

Section SortedFacts.
Context {A : Type} (le : A -> A -> bool).
Hypothesis le_total : forall x y, le x y = true \/ le y x = true.

Let R (x y : A) : Prop := le x y = true.

(** Two elements that may stand in either order. *)
Let eqv (x y : A) : bool := le x y && le y x.

Lemma insert_perm (x : A) (l : list A) : Permutation (insert le x l) (x :: l).
Proof.
  induction l as [|y l IH]; simpl; [reflexivity|].
  destruct (le x y); [reflexivity|].
  rewrite IH. apply perm_swap.
Qed.

Lemma sorted_perm (l : list A) : Permutation (sorted le l) l.
Proof.
  induction l as [|x l IH]; simpl; [reflexivity|].
  rewrite insert_perm. now constructor.
Qed.

Lemma insert_Sorted (x : A) (l : list A) :
  Sorted R l -> Sorted R (insert le x l).
Proof.
  induction 1 as [|y l Hl IH Hy]; simpl; [repeat constructor|].
  destruct (le x y) eqn:E.
  - repeat constructor; assumption.
  - constructor; [assumption|].
    assert (Ryx : R y x) by (destruct (le_total x y); [congruence|assumption]).
    destruct l as [|z l]; simpl; [now constructor|].
    destruct (le x z); constructor; [assumption|].
    now inversion Hy.
Qed.

Lemma sorted_Sorted (l : list A) : Sorted R (sorted le l).
Proof.
  induction l as [|x l IH]; simpl; [constructor | now apply insert_Sorted].
Qed.

Lemma sorted_StronglySorted (l : list A) :
  (forall x y z, le x y = true -> le y z = true -> le x z = true) ->
  StronglySorted R (sorted le l).
Proof.
  intro le_trans. apply Sorted_StronglySorted; [|apply sorted_Sorted].
  intros x y z. apply le_trans.
Qed.

Lemma insert_stable (z x : A) (l : list A) :
  (forall x y z, le x y = true -> le y z = true -> le x z = true) ->
  filter (eqv z) (insert le x l) = filter (eqv z) (x :: l).
Proof.
  intro le_trans.
  induction l as [|y l IH]; [reflexivity|].
  cbn [insert]. destruct (le x y) eqn:E; [reflexivity|].
  cbn [filter] in *. rewrite IH.
  destruct (eqv z x) eqn:Ex; destruct (eqv z y) eqn:Ey; try reflexivity.
  exfalso. unfold eqv in Ex, Ey.
  apply andb_true_iff in Ex as [_ Hxz], Ey as [Hzy _].
  rewrite (le_trans _ _ _ Hxz Hzy) in E. discriminate.
Qed.

(** [sorted] is stable: the elements of one rank keep their order. *)
Lemma sorted_stable (z : A) (l : list A) :
  (forall x y z, le x y = true -> le y z = true -> le x z = true) ->
  filter (eqv z) (sorted le l) = filter (eqv z) l.
Proof.
  intro le_trans. induction l as [|x l IH]; [reflexivity|].
  cbn [sorted fold_right]. fold (sorted le l).
  rewrite insert_stable by assumption. cbn [filter]. now rewrite IH.
Qed.

End SortedFacts.

(** ** The order of the ranker *)

Lemma key_le_spec (a b : Q * nat) :
  key_le a b = true <->
  (fst a < fst b)%Q \/ ((fst a == fst b)%Q /\ snd a <= snd b).
Proof.
  unfold key_le. destruct (Qeq_bool (fst a) (fst b)) eqn:E.
  - apply Qeq_bool_iff in E. rewrite Nat.leb_le. split.
    + intro. right. now split.
    + intros [Hlt|[_ Hle]]; [|assumption]. rewrite E in Hlt.
      now apply Qlt_irrefl in Hlt.
  - apply Qeq_bool_neq in E. rewrite Qle_bool_iff. split.
    + intro Hle. left. apply Qle_lteq in Hle as [|]; [assumption|contradiction].
    + intros [Hlt|[He _]]; [now apply Qlt_le_weak | contradiction].
Qed.

Lemma key_le_total (a b : Q * nat) : key_le a b = true \/ key_le b a = true.
Proof.
  rewrite !key_le_spec.
  destruct (Q_dec (fst a) (fst b)) as [[Hlt|Hgt]|He];
    [left; now left | right; now left |].
  destruct (Nat.le_ge_cases (snd a) (snd b)).
  - left. right. now split.
  - right. right. split; [now symmetry | assumption].
Qed.

Lemma key_le_trans (a b c : Q * nat) :
  key_le a b = true -> key_le b c = true -> key_le a c = true.
Proof.
  rewrite !key_le_spec.
  intros [H1|[H1 L1]] [H2|[H2 L2]].
  - left. lra.
  - left. lra.
  - left. lra.
  - right. split; [lra | lia].
Qed.

Lemma rank_le_total (p q : PageVisit) :
  rank_le p q = true \/ rank_le q p = true.
Proof. unfold rank_le. apply key_le_total. Qed.

Lemma rank_le_trans (p q r : PageVisit) :
  rank_le p q = true -> rank_le q r = true -> rank_le p r = true.
Proof. unfold rank_le. intros H1 H2. exact (key_le_trans _ _ _ H2 H1). Qed.

Lemma timestamp_le_total (p q : PageVisit) :
  timestamp_le p q = true \/ timestamp_le q p = true.
Proof. unfold timestamp_le. apply String.leb_total. Qed.

(** ** The ranker *)

Lemma Qgtb_spec (a b : Q) : Qgtb a b = true <-> (b < a)%Q.
Proof.
  unfold Qgtb. rewrite negb_true_iff. split.
  - intro H. apply Qnot_le_lt. intro L. apply Qle_bool_iff in L. congruence.
  - intro H. destruct (Qle_bool a b) eqn:E; [|reflexivity].
    apply Qle_bool_iff in E. exfalso. now apply (Qlt_not_le b a).
Qed.

Lemma is_valid_page_spec (p : PageVisit) :
  is_valid_page p = true <-> eligible p.
Proof.
  unfold is_valid_page, eligible, reading_time, content_length.
  destruct (url p) as [u|].
  - rewrite !andb_true_iff, orb_true_iff, Qgtb_spec, Nat.ltb_lt.
    unfold truthy. rewrite negb_true_iff, String.eqb_neq.
    split.
    + intros [[Hu Hh] Hr]. split; [|exact Hr]. exists u. auto.
    + intros [(u' & [= <-] & Hu & Hh) Hr]. auto.
  - split; [discriminate|]. intros [(u & Hu & _) _]. discriminate.
Qed.

Lemma rank_le_spec (p q : PageVisit) :
  rank_le p q = true <-> ranks_before p q.
Proof. unfold rank_le. rewrite key_le_spec. reflexivity. Qed.

Lemma rank_le_outranks (p q : PageVisit) :
  outranks p q -> rank_le p q = true /\ rank_le q p = false.
Proof.
  intro Ho. split.
  - apply rank_le_spec. destruct Ho as [Hlt|[He Hl]]; [now left|].
    right. split; [assumption | lia].
  - destruct (rank_le q p) eqn:E; [|reflexivity].
    apply rank_le_spec in E. unfold ranks_before in E.
    destruct Ho as [Hlt|[He Hl]], E as [Hlt'|[He' Hl']]; try lra; lia.
Qed.

Lemma same_rank_spec (z y : PageVisit) :
  same_rank z y = rank_le z y && rank_le y z.
Proof.
  apply eq_true_iff_eq.
  rewrite andb_true_iff, !rank_le_spec. unfold same_rank, ranks_before.
  rewrite andb_true_iff, Qeq_bool_iff, Nat.eqb_eq.
  split.
  - intros [He Hl]. split; right; (split; [lra | lia]).
  - intros [[H1|[H1 L1]] [H2|[H2 L2]]]; try lra. split; [lra | lia].
Qed.

Lemma mem_set_add (k key : string) (seen : list string) :
  mem k (set_add key seen) = (k =? key)%string || mem k seen.
Proof.
  apply eq_true_iff_eq.
  rewrite orb_true_iff, !mem_In, set_add_In, String.eqb_eq. reflexivity.
Qed.

(** The loop below its bound: it collects first occurrences until the
    bound is met. *)
Lemma dedup_loop_below (top_n : Z) (l : list PageVisit) :
  forall seen acc,
    (Z.of_nat (List.length acc) < top_n)%Z ->
    dedup_loop top_n l seen acc
    = acc ++ firstn (Z.to_nat top_n - List.length acc)
                    (first_occurrences seen l).
Proof.
  induction l as [|p l IH]; intros seen acc Hlt; simpl.
  - now rewrite firstn_nil, app_nil_r.
  - destruct (mem (dedup_key p) seen) eqn:E; simpl; [now apply IH|].
    rewrite length_app. simpl.
    destruct (Z.to_nat top_n - List.length acc) as [|k] eqn:Ek; [lia|].
    destruct (top_n <=? Z.of_nat (List.length acc + 1))%Z eqn:Eb.
    + apply Z.leb_le in Eb. assert (k = 0) as -> by lia. reflexivity.
    + apply Z.leb_gt in Eb. rewrite IH by (rewrite length_app; simpl; lia).
      rewrite length_app. simpl. rewrite <- app_assoc. simpl.
      repeat f_equal. lia.
Qed.

(** The loop with a bound that is met from the start: it stops at the
    first page it appends. *)
Lemma dedup_loop_nonpositive (top_n : Z) (l : list PageVisit) :
  forall seen,
    (top_n <= 0)%Z ->
    dedup_loop top_n l seen [] = firstn 1 (first_occurrences seen l).
Proof.
  induction l as [|p l IH]; intros seen Hle; simpl; [reflexivity|].
  destruct (mem (dedup_key p) seen) eqn:E; simpl; [now apply IH|].
  destruct (top_n <=? 1)%Z eqn:Eb; [reflexivity|].
  apply Z.leb_gt in Eb. lia.
Qed.

Lemma In_firstn {A : Type} (n : nat) (l : list A) (x : A) :
  In x (firstn n l) -> In x l.
Proof.
  revert l. induction n as [|n IH]; intros [|y l]; simpl; try tauto.
  intros [->|Hx]; [now left | right; now apply IH].
Qed.

(** [get_top_pages] is the first [top_n] first occurrences of the sorted
    valid pages. *)
Lemma get_top_pages_spec (data : BrowsingRecord) (top_n : Z) :
  get_top_pages data top_n
  = firstn (Z.to_nat top_n) (first_occurrences [] (sorted_pages data)).
Proof.
  unfold get_top_pages, sorted_pages.
  destruct (valid_pages data) as [|v vs] eqn:Ev.
  - simpl. now rewrite firstn_nil.
  - set (l := sorted rank_le (v :: vs)).
    destruct (Z.ltb_spec 0 top_n) as [Hpos|Hnp].
    + rewrite dedup_loop_below by (simpl; lia). simpl.
      rewrite Nat.sub_0_r. unfold py_slice_to.
      destruct (Z.leb_spec 0 top_n); [|lia].
      rewrite firstn_firstn. f_equal. lia.
    + rewrite dedup_loop_nonpositive by lia.
      replace (Z.to_nat top_n) with 0 by lia. rewrite firstn_O.
      unfold py_slice_to. destruct (Z.leb_spec 0 top_n).
      * replace (Z.to_nat top_n) with 0 by lia. apply firstn_O.
      * assert (Hl : List.length (firstn 1 (first_occurrences [] l)) <= 1)
          by (rewrite length_firstn; lia).
        replace (List.length (firstn 1 (first_occurrences [] l))
                 - Z.to_nat (- top_n)) with 0 by lia.
        apply firstn_O.
Qed.

Lemma first_occurrences_incl (l : list PageVisit) :
  forall seen p, In p (first_occurrences seen l) ->
                 In p l /\ mem (dedup_key p) seen = false.
Proof.
  induction l as [|x l IH]; intros seen p; simpl; [tauto|].
  destruct (mem (dedup_key x) seen) eqn:E.
  - intro Hp. apply IH in Hp as [Hp Hs]. auto.
  - intros [<-|Hp]; [auto|]. apply IH in Hp as [Hp Hs].
    rewrite mem_set_add in Hs. apply orb_false_iff in Hs as [_ Hs]. auto.
Qed.

Lemma first_occurrences_keys_fresh (l : list PageVisit) :
  forall seen p, In p (first_occurrences seen l) ->
                 mem (dedup_key p) seen = false.
Proof. intros seen p Hp. now apply first_occurrences_incl in Hp. Qed.

Lemma first_occurrences_nodup (l : list PageVisit) :
  forall seen, NoDup (map dedup_key (first_occurrences seen l)).
Proof.
  induction l as [|x l IH]; intro seen; simpl; [constructor|].
  destruct (mem (dedup_key x) seen) eqn:E; [apply IH|].
  simpl. constructor; [|apply IH].
  intro Hin. apply in_map_iff in Hin as (y & Hy & Hin).
  apply first_occurrences_keys_fresh in Hin.
  rewrite mem_set_add, Hy, String.eqb_refl in Hin. discriminate.
Qed.

(** A page is kept exactly when it is the first of the list with its
    key, and the key was not seen before. *)
Lemma first_occurrences_In (l : list PageVisit) :
  forall seen q,
    In q (first_occurrences seen l) <->
    mem (dedup_key q) seen = false
    /\ exists pre post,
         l = pre ++ q :: post
         /\ forall x, In x pre -> dedup_key x <> dedup_key q.
Proof.
  induction l as [|x l IH]; intros seen q; simpl.
  - split; [tauto|]. intros (_ & pre & post & E & _).
    now destruct pre.
  - destruct (mem (dedup_key x) seen) eqn:E.
    + rewrite IH. split.
      * intros (Hs & pre & post & -> & Hpre). split; [assumption|].
        exists (x :: pre), post. split; [reflexivity|].
        intros y [<-|Hy]; [congruence | auto].
      * intros (Hs & pre & post & El & Hpre). split; [assumption|].
        destruct pre as [|y pre]; simpl in El; injection El as -> ->.
        -- congruence.
        -- exists pre, post. split; [reflexivity|]. intros; apply Hpre.
           now right.
    + split.
      * intros [<-|Hq].
        -- split; [assumption|]. exists [], l. split; [reflexivity|].
           intros ? [].
        -- apply IH in Hq as (Hs & pre & post & -> & Hpre).
           rewrite mem_set_add in Hs.
           apply orb_false_iff in Hs as [Hk Hs]. split; [assumption|].
           exists (x :: pre), post. split; [reflexivity|].
           intros y [<-|Hy]; [|auto].
           apply String.eqb_neq in Hk. congruence.
      * intros (Hs & pre & post & El & Hpre).
        destruct pre as [|y pre]; simpl in El; injection El as -> ->.
        -- now left.
        -- right. apply IH. split.
           ++ rewrite mem_set_add, Hs, orb_false_r.
              apply String.eqb_neq. intro Heq. apply (Hpre y); [now left|].
              now symmetry.
           ++ exists pre, post. split; [reflexivity|]. intros; apply Hpre.
              now right.
Qed.

Lemma valid_pages_In (data : BrowsingRecord) (p : PageVisit) :
  In p (valid_pages data) <->
  In p (get (data_pages data) []) /\ eligible p.
Proof.
  unfold valid_pages. rewrite filter_In, is_valid_page_spec. reflexivity.
Qed.

Lemma sorted_pages_In (data : BrowsingRecord) (p : PageVisit) :
  In p (sorted_pages data) <-> In p (valid_pages data).
Proof.
  unfold sorted_pages. split; apply Permutation_in;
    [|symmetry]; apply sorted_perm.
Qed.

Lemma get_top_pages_In (data : BrowsingRecord) (top_n : Z) (p : PageVisit) :
  In p (get_top_pages data top_n) -> In p (valid_pages data).
Proof.
  rewrite get_top_pages_spec. intro Hp. apply In_firstn in Hp.
  apply first_occurrences_incl in Hp as [Hp _].
  now apply sorted_pages_In.
Qed.

Lemma NoDup_firstn {A : Type} (n : nat) (l : list A) :
  NoDup l -> NoDup (firstn n l).
Proof.
  revert l. induction n as [|n IH]; intros [|x l] Hl; simpl;
    try constructor.
  - inversion Hl; subst. intro Hin. now apply In_firstn in Hin.
  - inversion Hl; subst. now apply IH.
Qed.

Lemma StronglySorted_impl {A : Type} (R R' : A -> A -> Prop) (l : list A) :
  (forall x y, R x y -> R' x y) ->
  StronglySorted R l -> StronglySorted R' l.
Proof.
  intro HR. induction 1 as [|x l Hl IH Hx]; constructor; [assumption|].
  eapply Forall_impl; [|exact Hx]. apply HR.
Qed.

Lemma StronglySorted_firstn {A : Type} (R : A -> A -> Prop) (n : nat)
  (l : list A) :
  StronglySorted R l -> StronglySorted R (firstn n l).
Proof.
  revert l. induction n as [|n IH]; intros [|x l] Hl; simpl;
    try constructor.
  - inversion Hl; subst. now apply IH.
  - inversion Hl; subst. apply Forall_forall. intros y Hy.
    apply In_firstn in Hy. rewrite Forall_forall in H2. now apply H2.
Qed.

Lemma StronglySorted_first_occurrences (R : PageVisit -> PageVisit -> Prop)
  (l : list PageVisit) :
  StronglySorted R l ->
  forall seen, StronglySorted R (first_occurrences seen l).
Proof.
  induction 1 as [|x l Hl IH Hx]; intro seen; simpl; [constructor|].
  destruct (mem (dedup_key x) seen); [apply IH|].
  constructor; [apply IH|].
  apply Forall_forall. intros y Hy.
  apply first_occurrences_incl in Hy as [Hy _].
  rewrite Forall_forall in Hx. now apply Hx.
Qed.

Lemma sorted_pages_sorted (data : BrowsingRecord) :
  StronglySorted ranks_before (sorted_pages data).
Proof.
  apply (StronglySorted_impl (fun p q => rank_le p q = true)).
  - intros p q. apply rank_le_spec.
  - apply sorted_StronglySorted; [apply rank_le_total | apply rank_le_trans].
Qed.

Lemma sorted_pages_stable (data : BrowsingRecord) (z : PageVisit) :
  filter (same_rank z) (sorted_pages data)
  = filter (same_rank z) (valid_pages data).
Proof.
  unfold sorted_pages.
  rewrite (filter_ext _ _ (same_rank_spec z)).
  rewrite (filter_ext (same_rank z) _ (same_rank_spec z)).
  apply sorted_stable. apply rank_le_trans.
Qed.

(** Two eligible pages of one key: the outranking one is kept. *)
Lemma top_pages_of_duplicates (data : BrowsingRecord) (top_n : Z)
  (p q : PageVisit) :
  data_pages data = Some [p; q] \/ data_pages data = Some [q; p] ->
  eligible p -> eligible q ->
  dedup_key p = dedup_key q -> outranks p q -> (1 <= top_n)%Z ->
  get_top_pages data top_n = [p].
Proof.
  intros Hd Hp Hq Hk Ho Hn.
  apply is_valid_page_spec in Hp, Hq.
  destruct (rank_le_outranks p q Ho) as [Hpq Hqp].
  rewrite get_top_pages_spec.
  assert (Es : sorted_pages data = [p; q]).
  { unfold sorted_pages, valid_pages.
    destruct Hd as [-> | ->]; simpl; rewrite Hp, Hq; simpl.
    - now rewrite Hpq.
    - now rewrite Hqp. }
  rewrite Es. simpl. rewrite <- Hk, String.eqb_refl. simpl.
  destruct (Z.to_nat top_n) as [|n] eqn:E; [lia|].
  simpl. now rewrite firstn_nil.
Qed.

(** The ranking of three eligible pages of distinct keys, with reading
    times 10, 10, 5 and content lengths 20, 50, 100. *)
Lemma top_pages_of_three (data : BrowsingRecord) (top_n : Z)
  (p0 p1 p2 : PageVisit) :
  data_pages data = Some [p0; p1; p2] ->
  eligible p0 -> eligible p1 -> eligible p2 ->
  (reading_time p0 == 10)%Q -> (reading_time p1 == 10)%Q ->
  (reading_time p2 == 5)%Q ->
  content_length p0 = 20 -> content_length p1 = 50 ->
  content_length p2 = 100 ->
  dedup_key p0 <> dedup_key p1 -> dedup_key p0 <> dedup_key p2 ->
  dedup_key p1 <> dedup_key p2 ->
  (3 <= top_n)%Z ->
  get_top_pages data top_n = [p1; p0; p2].
Proof.
  intros Hd E0 E1 E2 R0 R1 R2 L0 L1 L2 K01 K02 K12 Hn.
  apply is_valid_page_spec in E0, E1, E2.
  assert (O10 : outranks p1 p0) by (right; split; [lra | lia]).
  assert (O12 : outranks p1 p2) by (left; lra).
  assert (O02 : outranks p0 p2) by (left; lra).
  destruct (rank_le_outranks _ _ O10) as [H10 H01].
  destruct (rank_le_outranks _ _ O12) as [H12 _].
  destruct (rank_le_outranks _ _ O02) as [H02 _].
  rewrite get_top_pages_spec.
  assert (Es : sorted_pages data = [p1; p0; p2]).
  { unfold sorted_pages, valid_pages. rewrite Hd. simpl.
    rewrite E0, E1, E2. simpl. rewrite H12. simpl.
    now rewrite H01, H02. }
  rewrite Es. apply String.eqb_neq in K01, K02, K12.
  pose proof K01 as K10. pose proof K02 as K20. pose proof K12 as K21.
  rewrite String.eqb_sym in K10, K20, K21.
  simpl.
  repeat (rewrite ?mem_set_add, ?K01, ?K02, ?K12, ?K10, ?K20, ?K21; simpl).
  destruct (Z.to_nat top_n) as [|[|[|n]]] eqn:E; try lia.
  simpl. now rewrite firstn_nil.
Qed.

(** ** The budgeter *)

Lemma append_assoc (s t u : string) : ((s ++ t) ++ u = s ++ (t ++ u))%string.
Proof. induction s as [|c s IH]; simpl; [reflexivity | now rewrite IH]. Qed.

Lemma prefix_append (s t : string) : String.prefix s (s ++ t) = true.
Proof.
  induction s as [|c s IH]; simpl; [now destruct t|].
  destruct (ascii_dec c c); [assumption | contradiction].
Qed.

Lemma prefix_refl (s : string) : String.prefix s s = true.
Proof.
  induction s as [|c s IH]; simpl; [reflexivity|].
  destruct (ascii_dec c c); [assumption | contradiction].
Qed.

Lemma join_cons (sep b : string) (rest : list string) :
  rest <> [] -> join sep (b :: rest) = (b ++ sep ++ join sep rest)%string.
Proof. destruct rest; [contradiction | reflexivity]. Qed.

Lemma join_app (sep : string) (a b : list string) :
  a <> [] -> b <> [] ->
  join sep (a ++ b) = (join sep a ++ sep ++ join sep b)%string.
Proof.
  intros Ha Hb. induction a as [|x a IH]; [contradiction|].
  destruct a as [|y a].
  - simpl app. now rewrite join_cons.
  - change ((x :: y :: a) ++ b) with (x :: ((y :: a) ++ b)).
    rewrite join_cons by discriminate.
    rewrite IH by discriminate.
    rewrite (join_cons sep x (y :: a)) by discriminate.
    now rewrite !append_assoc.
Qed.

Lemma join_prefix (sep : string) (a b : list string) :
  String.prefix (join sep a) (join sep (a ++ b)) = true.
Proof.
  destruct a as [|x a]; [now destruct (join sep ([] ++ b))|].
  destruct b as [|y b]; [rewrite app_nil_r; apply prefix_refl|].
  rewrite join_app by discriminate. apply prefix_append.
Qed.

Lemma Qgtb_false (a b : Q) : Qgtb a b = false <-> (a <= b)%Q.
Proof.
  unfold Qgtb. rewrite negb_false_iff. apply Qle_bool_iff.
Qed.

Lemma tokens_of_cons (b : string) (blocks : list string) :
  tokens_of (b :: blocks) = (page_tokens b + tokens_of blocks)%Q.
Proof. reflexivity. Qed.

Section Budget.
Context `{Runtime}.

Lemma budget_loop_acc (max_tokens : Z) (pages : list PageVisit) :
  forall acc est,
    budget_loop max_tokens pages acc est
    = acc ++ budget_loop max_tokens pages [] est.
Proof.
  induction pages as [|page rest IH]; intros acc est; simpl.
  - now rewrite app_nil_r.
  - destruct (Qgtb _ _); [now rewrite app_nil_r|].
    rewrite IH, (IH [page_text page]). now rewrite <- app_assoc.
Qed.

(** The accepted blocks are the first ones of the rendered pages. *)
Lemma budget_loop_prefix (max_tokens : Z) (pages : list PageVisit) :
  forall est,
    budget_loop max_tokens pages [] est
    = firstn (List.length (budget_loop max_tokens pages [] est))
             (map page_text pages).
Proof.
  induction pages as [|page rest IH]; intro est; simpl; [reflexivity|].
  destruct (Qgtb _ _); [reflexivity|].
  rewrite budget_loop_acc. simpl. f_equal. apply IH.
Qed.

(** What is accepted fits the budget. *)
Lemma budget_loop_fits (max_tokens : Z) (pages : list PageVisit) :
  forall est,
    budget_loop max_tokens pages [] est = []
    \/ (est + tokens_of (budget_loop max_tokens pages [] est)
        <= inject_Z max_tokens)%Q.
Proof.
  induction pages as [|page rest IH]; intro est; simpl; [now left|].
  destruct (Qgtb _ _) eqn:E; [now left|]. right.
  apply Qgtb_false in E.
  rewrite budget_loop_acc. simpl app. rewrite tokens_of_cons.
  destruct (IH (est + page_tokens (page_text page))%Q) as [-> | Hle].
  - simpl. lra.
  - lra.
Qed.

(** The loop stops only at a block that would exceed the budget. *)
Lemma budget_loop_stops (max_tokens : Z) (pages : list PageVisit) :
  forall est,
    List.length (budget_loop max_tokens pages [] est) < List.length pages ->
    (inject_Z max_tokens
     < est + tokens_of
               (firstn (S (List.length
                             (budget_loop max_tokens pages [] est)))
                       (map page_text pages)))%Q.
Proof.
  induction pages as [|page rest IH]; intro est; simpl; [lia|].
  destruct (Qgtb _ _) eqn:E.
  - intros _. apply Qgtb_spec in E. simpl.
    rewrite ?firstn_0. cbn [tokens_of fold_right]. lra.
  - rewrite budget_loop_acc. cbn [app List.length firstn map]. intro Hlt.
    specialize (IH (est + page_tokens (page_text page))%Q).
    assert (Hlt' : List.length
                     (budget_loop max_tokens rest []
                        (est + page_tokens (page_text page))%Q)
                   < List.length rest) by lia.
    specialize (IH Hlt'). cbn [firstn] in IH.
    lra.
Qed.

(** A larger budget accepts what the smaller one does, and may go on. *)
Lemma budget_loop_mono (m1 m2 : Z) (pages : list PageVisit) :
  (m1 <= m2)%Z ->
  forall est, exists more,
    budget_loop m2 pages [] est = budget_loop m1 pages [] est ++ more.
Proof.
  intro Hm. rewrite Zle_Qle in Hm.
  induction pages as [|page rest IH]; intro est; simpl; [now exists []|].
  destruct (Qgtb _ (inject_Z m1)) eqn:E1; [eexists; reflexivity|].
  destruct (Qgtb _ (inject_Z m2)) eqn:E2.
  - apply Qgtb_false in E1. apply Qgtb_spec in E2. lra.
  - destruct (IH (est + page_tokens (page_text page))%Q) as [more Hmore].
    exists more. rewrite budget_loop_acc, (budget_loop_acc m1), Hmore.
    reflexivity.
Qed.

Lemma content_parts_nil (data : BrowsingRecord) (max_tokens : Z) :
  get (data_pages data) [] = [] -> content_parts data max_tokens = [].
Proof. unfold content_parts. now intros ->. Qed.

Lemma prepare_is_join (data : BrowsingRecord) (max_tokens : Z) :
  prepare_content_for_llm data max_tokens
  = join nl (content_parts data max_tokens).
Proof.
  unfold prepare_content_for_llm.
  destruct (get (data_pages data) []) eqn:E; [|reflexivity].
  now rewrite content_parts_nil.
Qed.

Lemma content_parts_prefix (data : BrowsingRecord) (max_tokens : Z) :
  content_parts data max_tokens
  = firstn (List.length (content_parts data max_tokens)) (all_blocks data).
Proof. apply budget_loop_prefix. Qed.

(** The blocks are those of the pages in ascending order of timestamp. *)
Lemma all_blocks_order (data : BrowsingRecord) :
  exists ordered,
    all_blocks data = map page_text ordered
    /\ Permutation ordered (get (data_pages data) [])
    /\ Sorted (fun p q => String.leb (get (timestamp p) "")
                                     (get (timestamp q) "") = true)
              ordered.
Proof.
  exists (sorted timestamp_le (get (data_pages data) [])).
  split; [reflexivity|]. split; [apply sorted_perm|].
  apply (sorted_Sorted timestamp_le timestamp_le_total).
Qed.

Lemma page_text_shape (page : PageVisit) :
  exists body, page_text page = (nl ++ body ++ nl)%string.
Proof.
  exists ("---" ++ nl
          ++ "[" ++ time_str (get (timestamp page) "") ++ "] "
          ++ get (title page) "Untitled" ++ nl
          ++ "Source: " ++ get (domain page) "Unknown" ++ nl
          ++ "Content: " ++ slice_to 1000 (get (content page) ""))%string.
  unfold page_text. f_equal. rewrite !append_assoc. reflexivity.
Qed.

End Budget.

(** ** [save_digest] *)

Section Digest.
Context `{Runtime}.

Lemma save_digest_run (digest output_path date : string) (stats : Stats)
  (w : World) :
  faults w = [] ->
  save_digest digest output_path date stats w
  = (Return tt,
     log (EvWrite output_path (full_content digest date (clock w) stats))
         (fs_set output_path (full_content digest date (clock w) stats) w)).
Proof.
  intro Ef. unfold save_digest, bind, datetime_now, write_text, next_fault.
  now rewrite Ef.
Qed.

(** The text depends on the clock through its minute only. *)
Lemma full_content_clock (digest date : string) (stats : Stats)
  (now1 now2 : DateTime) :
  strftime_Ymd_HM now1 = strftime_Ymd_HM now2 ->
  full_content digest date now1 stats = full_content digest date now2 stats.
Proof. unfold full_content. now intros ->. Qed.

End Digest.

(* ================================================================== *)
(** * The claims *)

(** C1: the ranker admits a page to its candidate set if and only if the
    page's URL is present, not empty and begins with [http] once trimmed,
    and its reading time exceeds 0.5 or its content is longer than 100
    characters; only such pages reach the result.  A page with reading
    time 0 and 50 characters of content is excluded whatever its URL; a
    page with a valid URL, reading time 0.6 and no content is included,
    and is the whole ranking when it is the only page. *)
Theorem ranker_admits_eligible_pages (data : BrowsingRecord)
  (p : PageVisit) :
  (In p (valid_pages data) <->
   In p (get (data_pages data) []) /\ eligible p)
  /\ (forall top_n, In p (get_top_pages data top_n) -> eligible p)
  /\ ((reading_time p == 0)%Q -> content_length p = 50 ->
      ~ In p (valid_pages data)
      /\ forall top_n, ~ In p (get_top_pages data top_n))
  /\ ((exists u, url p = Some u /\ u <> ""
                 /\ startswith "http" (strip u) = true) ->
      (reading_time p == 6 # 10)%Q -> get (content p) "" = "" ->
      (In p (get (data_pages data) []) -> In p (valid_pages data))
      /\ (data_pages data = Some [p] ->
          forall top_n, (1 <= top_n)%Z -> get_top_pages data top_n = [p])).
Proof.
  split; [apply valid_pages_In|]. split; [|split].
  - intros top_n Hp. apply get_top_pages_In in Hp.
    now apply valid_pages_In in Hp.
  - intros Hr Hl.
    assert (Hn : ~ In p (valid_pages data)).
    { intro Hp. apply valid_pages_In in Hp as [_ [_ [Hgt|Hgt]]].
      - rewrite Hr in Hgt. revert Hgt. apply Qle_not_lt. discriminate.
      - lia. }
    split; [exact Hn|]. intros top_n Hp. apply Hn.
    now apply get_top_pages_In in Hp.
  - intros Hu Hr Hc.
    assert (He : eligible p).
    { split; [exact Hu|]. left. rewrite Hr. reflexivity. }
    split.
    + intro Hp. apply valid_pages_In. now split.
    + intros Hd top_n Hn. rewrite get_top_pages_spec.
      unfold sorted_pages, valid_pages. rewrite Hd. simpl.
      apply is_valid_page_spec in He. rewrite He. simpl.
      destruct (Z.to_nat top_n) as [|n] eqn:E; [lia|].
      simpl. now rewrite firstn_nil.
Qed.

Lemma ranker_admits_eligible_pages_witness :
  ~ In sample_idle (valid_pages (sample_record [sample_idle; sample_brief]))
  /\ get_top_pages (sample_record [sample_brief]) 15 = [sample_brief].
Proof.
  split.
  - destruct (ranker_admits_eligible_pages
                (sample_record [sample_idle; sample_brief]) sample_idle)
      as (_ & _ & Hout & _).
    apply Hout; reflexivity.
  - destruct (ranker_admits_eligible_pages
                (sample_record [sample_brief]) sample_brief)
      as (_ & _ & _ & Hin).
    apply Hin.
    + exists "https://brief.example/". repeat split. discriminate.
    + reflexivity.
    + reflexivity.
    + reflexivity.
    + discriminate.
Defined.

(** The key is made of the fields: pages that agree on the trimmed,
    lowercased domain and on the first 50 characters of the trimmed,
    lowercased title have one key. *)
Lemma dedup_key_of_fields (p q : PageVisit) :
  lower (strip (get (domain p) "")) = lower (strip (get (domain q) "")) ->
  slice_to 50 (lower (strip (get (title p) "")))
  = slice_to 50 (lower (strip (get (title q) ""))) ->
  dedup_key p = dedup_key q.
Proof. unfold dedup_key. now intros -> ->. Qed.

(** C2: the deduplication key of a page is its trimmed, lowercased
    domain, a colon, and the first 50 characters of its trimmed,
    lowercased title.  After filtering and sorting, [get_top_pages] keeps
    the first occurrence of each key and returns the first [top_n] of
    them: the result holds no key twice and, for [top_n >= 0], at most
    [top_n] entries (none for a negative [top_n]).  Two eligible pages
    that agree on the domain and on the first 50 characters of the title,
    both trimmed and lowercased (so two pages of identical domain and
    title, apart in URL and reading time only), one outranking the other
    in reading time (or, on a tie, in content length), yield the
    outranking one alone, in whichever order they come. *)
Theorem ranker_keeps_first_occurrences (data : BrowsingRecord)
  (top_n : Z) :
  (forall page,
      dedup_key page
      = (lower (strip (get (domain page) "")) ++ ":"
         ++ substring 0 50 (lower (strip (get (title page) ""))))%string)
  /\ get_top_pages data top_n
     = firstn (Z.to_nat top_n) (first_occurrences [] (sorted_pages data))
  /\ (Z.of_nat (List.length (get_top_pages data top_n))
      <= Z.max 0 top_n)%Z
  /\ NoDup (map dedup_key (get_top_pages data top_n))
  /\ (forall q, In q (first_occurrences [] (sorted_pages data)) <->
                exists pre post,
                  sorted_pages data = pre ++ q :: post
                  /\ forall x, In x pre -> dedup_key x <> dedup_key q)
  /\ (forall p q,
        data_pages data = Some [p; q] \/ data_pages data = Some [q; p] ->
        eligible p -> eligible q ->
        dedup_key p = dedup_key q -> outranks p q -> (1 <= top_n)%Z ->
        get_top_pages data top_n = [p])
  /\ (forall p q,
        data_pages data = Some [p; q] \/ data_pages data = Some [q; p] ->
        eligible p -> eligible q ->
        lower (strip (get (domain p) ""))
        = lower (strip (get (domain q) "")) ->
        substring 0 50 (lower (strip (get (title p) "")))
        = substring 0 50 (lower (strip (get (title q) ""))) ->
        outranks p q -> (1 <= top_n)%Z ->
        get_top_pages data top_n = [p])
  /\ (forall p q,
        data_pages data = Some [p; q] \/ data_pages data = Some [q; p] ->
        eligible p -> eligible q ->
        domain p = domain q -> title p = title q ->
        (reading_time q < reading_time p)%Q
        \/ ((reading_time q == reading_time p)%Q
            /\ content_length q < content_length p) ->
        (1 <= top_n)%Z ->
        get_top_pages data top_n = [p]).
Proof.
  split; [reflexivity|].
  split; [apply get_top_pages_spec|].
  split; [|split; [|split; [|split; [|split]]]].
  - rewrite get_top_pages_spec, length_firstn. lia.
  - rewrite get_top_pages_spec, <- firstn_map.
    apply NoDup_firstn, first_occurrences_nodup.
  - intro q. rewrite first_occurrences_In. simpl. tauto.
  - intros p q. apply top_pages_of_duplicates.
  - intros p q Hd Hp Hq Edom Etitle.
    apply (top_pages_of_duplicates data top_n p q); try assumption.
    now apply dedup_key_of_fields.
  - intros p q Hd Hp Hq Edom Etitle Ho.
    apply (top_pages_of_duplicates data top_n p q); try assumption.
    apply dedup_key_of_fields; [now rewrite Edom | now rewrite Etitle].
Qed.

Lemma ranker_keeps_first_occurrences_witness :
  get_top_pages (sample_record [sample_less; sample_more]) 15
  = [sample_more].
Proof.
  destruct (ranker_keeps_first_occurrences
              (sample_record [sample_less; sample_more]) 15)
    as (_ & _ & _ & _ & _ & _ & _ & Hdup).
  apply (Hdup sample_more sample_less).
  - right. reflexivity.
  - apply is_valid_page_spec. reflexivity.
  - apply is_valid_page_spec. reflexivity.
  - reflexivity.
  - reflexivity.
  - left. reflexivity.
  - discriminate.
Defined.

(** C3: the ranker orders the valid pages by reading time, descending,
    and pages of equal reading time by content length, descending; the
    sorted list is a rearrangement of the valid pages in which the pages
    that tie on both keys keep their order; the result of
    [get_top_pages] is in that order.  Eligible pages of distinct keys
    with reading times 10, 10, 5 and content lengths 20, 50, 100 are
    ranked second page, first page, third page. *)
Theorem ranker_order (data : BrowsingRecord) :
  StronglySorted ranks_before (sorted_pages data)
  /\ Permutation (sorted_pages data) (valid_pages data)
  /\ (forall z, filter (same_rank z) (sorted_pages data)
                = filter (same_rank z) (valid_pages data))
  /\ (forall top_n, StronglySorted ranks_before (get_top_pages data top_n))
  /\ (forall p0 p1 p2 top_n,
        data_pages data = Some [p0; p1; p2] ->
        eligible p0 -> eligible p1 -> eligible p2 ->
        (reading_time p0 == 10)%Q -> (reading_time p1 == 10)%Q ->
        (reading_time p2 == 5)%Q ->
        content_length p0 = 20 -> content_length p1 = 50 ->
        content_length p2 = 100 ->
        dedup_key p0 <> dedup_key p1 -> dedup_key p0 <> dedup_key p2 ->
        dedup_key p1 <> dedup_key p2 ->
        (3 <= top_n)%Z ->
        get_top_pages data top_n = [p1; p0; p2]).
Proof.
  split; [apply sorted_pages_sorted|].
  split; [apply sorted_perm|].
  split; [apply sorted_pages_stable|]. split.
  - intro top_n. rewrite get_top_pages_spec.
    apply StronglySorted_firstn, StronglySorted_first_occurrences,
      sorted_pages_sorted.
  - intros p0 p1 p2 top_n Hd. now apply top_pages_of_three.
Qed.

Lemma ranker_order_witness :
  get_top_pages (sample_record [sample_p0; sample_p1; sample_p2]) 15
  = [sample_p1; sample_p0; sample_p2].
Proof.
  destruct (ranker_order (sample_record [sample_p0; sample_p1; sample_p2]))
    as (_ & _ & _ & _ & Hthree).
  apply Hthree;
    try reflexivity;
    try (apply is_valid_page_spec; reflexivity);
    discriminate.
Defined.

(** C4: for a fixed record and budgets [m1 <= m2], the budgeter accepts
    at budget [m2] the blocks it accepts at [m1], possibly followed by
    more, so at least as many pages, and its output at [m1] is a prefix
    of its output at [m2].  The accepted blocks are the first ones of the
    pages taken in ascending order of timestamp, they fit the budget, and
    when a page is left out the block after the accepted ones would
    exceed the budget: the loop stops there and skips nothing. *)
Theorem budgeter_monotone `{Runtime} (data : BrowsingRecord) (m1 m2 : Z) :
  (m1 <= m2)%Z ->
  List.length (content_parts data m1) <= List.length (content_parts data m2)
  /\ (exists more, content_parts data m2 = content_parts data m1 ++ more)
  /\ String.prefix (prepare_content_for_llm data m1)
                   (prepare_content_for_llm data m2) = true
  /\ (forall m,
        let parts := content_parts data m in
        parts = firstn (List.length parts) (all_blocks data)
        /\ (parts = [] \/ (tokens_of parts <= inject_Z m)%Q)
        /\ (List.length parts < List.length (all_blocks data) ->
            (inject_Z m
             < tokens_of (firstn (S (List.length parts))
                                 (all_blocks data)))%Q))
  /\ (exists ordered,
        all_blocks data = map page_text ordered
        /\ Permutation ordered (get (data_pages data) [])
        /\ Sorted (fun p q => String.leb (get (timestamp p) "")
                                         (get (timestamp q) "") = true)
                  ordered).
Proof.
  intro Hm.
  destruct (budget_loop_mono m1 m2
              (sorted timestamp_le (get (data_pages data) [])) Hm 0%Q)
    as [more Hmore].
  fold (content_parts data m2) in Hmore.
  fold (content_parts data m1) in Hmore.
  split; [rewrite Hmore, length_app; lia|].
  split; [now exists more|].
  split; [rewrite !prepare_is_join, Hmore; apply join_prefix|].
  split; [|apply all_blocks_order].
  intros m parts. split; [apply content_parts_prefix|]. split.
  - destruct (budget_loop_fits m
                (sorted timestamp_le (get (data_pages data) [])) 0%Q)
      as [E|E]; [now left | right].
    fold (content_parts data m) in E. fold parts in E. lra.
  - intro Hlt. unfold all_blocks in *. rewrite length_map in Hlt.
    pose proof (budget_loop_stops m
                  (sorted timestamp_le (get (data_pages data) [])) 0%Q Hlt)
      as E.
    fold (content_parts data m) in E. fold parts in E. lra.
Qed.

Lemma budgeter_monotone_witness :
  List.length
    (content_parts (H:=sample_runtime)
       (sample_record [sample_p0; sample_p1; sample_p2]) 20)
  <= List.length
       (content_parts (H:=sample_runtime)
          (sample_record [sample_p0; sample_p1; sample_p2]) 4000).
Proof.
  apply (budgeter_monotone (H:=sample_runtime)
           (sample_record [sample_p0; sample_p1; sample_p2]) 20 4000).
  discriminate.
Defined.

(** C5: the output of the budgeter is the accepted blocks joined by one
    newline; the accepted blocks are the first ones of the pages taken
    in ascending order of timestamp; every block begins and ends with a
    newline, so that the joining newline is one empty line between two
    blocks; and the output is the empty string when there is no page. *)
Theorem budgeter_output `{Runtime} (data : BrowsingRecord)
  (max_tokens : Z) :
  prepare_content_for_llm data max_tokens
  = join nl (content_parts data max_tokens)
  /\ content_parts data max_tokens
     = firstn (List.length (content_parts data max_tokens))
              (all_blocks data)
  /\ (exists ordered,
        all_blocks data = map page_text ordered
        /\ Permutation ordered (get (data_pages data) [])
        /\ Sorted (fun p q => String.leb (get (timestamp p) "")
                                         (get (timestamp q) "") = true)
                  ordered)
  /\ (forall b, In b (all_blocks data) ->
                exists body, b = (nl ++ body ++ nl)%string)
  /\ (join nl [] = ""
      /\ (forall b, join nl [b] = b)
      /\ (forall b rest, rest <> [] ->
            join nl (b :: rest) = (b ++ nl ++ join nl rest)%string))
  /\ (get (data_pages data) [] = [] ->
      prepare_content_for_llm data max_tokens = "").
Proof.
  split; [apply prepare_is_join|].
  split; [apply content_parts_prefix|].
  split; [apply all_blocks_order|]. split; [|split].
  - intros b Hb. apply in_map_iff in Hb as (page & <- & _).
    apply page_text_shape.
  - split; [reflexivity|]. split; [reflexivity|].
    intros b rest. apply join_cons.
  - intro E. unfold prepare_content_for_llm. now rewrite E.
Qed.

Lemma budgeter_output_witness :
  prepare_content_for_llm (H:=sample_runtime)
    (mkRecord (Some "2025-01-19") None None) 4000 = "".
Proof.
  destruct (budgeter_output (H:=sample_runtime)
              (mkRecord (Some "2025-01-19") None None) 4000)
    as (_ & _ & _ & _ & _ & Hempty).
  apply Hempty. reflexivity.
Defined.

(** C6, at the record whose [date] key ends with a tab: the key has
    trailing white space, which [normalize_json_keys] would strip, yet
    the test of [load_browsing_data] looks for the space character only,
    finds nothing to repair, and the unrepaired record then fails the
    validation for its missing [date] key. *)
Theorem detection_misses_tab_key :
  let key := ("date" ++ tab)%string in
  let w := sample_world "export.json" "tabbed" [] in
  let run := load_browsing_data (H:=sample_runtime) "export.json" w in
  In key (all_keys sample_tabbed)
  /\ surrounding_ws key = true
  /\ needs_repair sample_tabbed = false
  /\ normalize_json_keys sample_tabbed
     = JDict [("date", JStr "2026-02-06"); ("pages", JList [])]
  /\ fst run = Raise (ValueError
                        (MissingRequiredKeys ["date"] [key; "pages"]))
  /\ trace (snd run) = [EvExists "export.json"; EvRead "export.json"].
Proof.
  cbv zeta. split; [now left|]. repeat split; reflexivity.
Qed.

(** C7: repair is idempotent.  [normalize_json_keys] applied twice is
    [normalize_json_keys] applied once, and the detection test is false on
    its output.  On an already-normalized record (no key with surrounding
    white space, no empty key, no string value with surrounding white
    space) the test is false, [normalize_json_keys] returns the record
    itself, and [load_browsing_data] performs the probe and the read
    only: no announcement, no backup, no write, the files as they
    were, and the record itself returned when it has its [date] and
    [pages]. *)
Theorem repair_idempotent `{Runtime} (obj : json) :
  normalize_json_keys (normalize_json_keys obj) = normalize_json_keys obj
  /\ needs_repair (normalize_json_keys obj) = false
  /\ (normalized obj = true ->
      needs_repair obj = false
      /\ (dict_wf obj = true -> normalize_json_keys obj = obj)
      /\ (forall filepath raw w,
            fs w filepath = Some raw ->
            lower (path_suffix filepath) = ".json" ->
            faults w = [] ->
            json_loads raw = inl obj ->
            exists r,
              load_browsing_data filepath w
              = (r, mkWorld (fs w) (clock w) []
                            (trace w ++ [EvExists filepath;
                                         EvRead filepath]))
              /\ (forall items, obj = JDict items ->
                    mem "date" (dict_keys items) = true ->
                    mem "pages" (dict_keys items) = true ->
                    r = Return obj))).
Proof.
  split; [apply normalize_idem|].
  split; [apply needs_repair_normalized, normalize_normalized|].
  intro Hn. pose proof (needs_repair_normalized obj Hn) as Hd.
  split; [exact Hd|]. split; [now apply normalize_fixed|].
  intros filepath raw w Efs Esuf Ef Ej.
  destruct (load_no_repair filepath raw obj w Efs Esuf Ef Ej Hd)
    as (r & Er & Hr & _).
  exists r. split; assumption.
Qed.

Lemma repair_idempotent_witness :
  needs_repair sample_clean = false
  /\ normalize_json_keys sample_clean = sample_clean
  /\ fst (load_browsing_data (H:=sample_runtime) "export.json"
            (sample_world "export.json" "clean" []))
     = Return sample_clean.
Proof.
  destruct (repair_idempotent (H:=sample_runtime) sample_clean)
    as (_ & _ & Hn).
  destruct (Hn eq_refl) as (Hd & Hf & Hl).
  split; [exact Hd|]. split; [exact (Hf eq_refl)|].
  destruct (Hl "export.json" "clean"
               (sample_world "export.json" "clean" [])
               eq_refl eq_refl eq_refl eq_refl) as (r & Er & Hr).
  rewrite Er. simpl. apply (Hr _ eq_refl); reflexivity.
Defined.

(** C8: in every run of [load_browsing_data], whatever operation fails,
    a write is a write to the input path, the backup path is another
    path, and the copy of the input to the backup path comes before the
    write in the trace; if the input file was changed by the run, the
    backup file holds the original text.  When the record needs repair
    and nothing fails, the run announces, copies, writes, in that order,
    and leaves the original text at the backup path and the repaired
    record at the input path. *)
Theorem backup_precedes_write `{Runtime} (filepath : string) (w : World)
  (r : outcome json) (w' : World) :
  load_browsing_data filepath w = (r, w') ->
  let bak := with_suffix filepath ".json.bak" in
  (forall pre q c post,
      trace w' = trace w ++ pre ++ EvWrite q c :: post ->
      q = filepath /\ bak <> filepath
      /\ In (EvCopy filepath bak) pre
      /\ (forall q' c', ~ In (EvWrite q' c') pre)
      /\ fs w filepath <> None /\ fs w' bak = fs w filepath)
  /\ (fs w' filepath <> fs w filepath ->
      bak <> filepath /\ fs w' bak = fs w filepath)
  /\ (forall raw data,
        fs w filepath = Some raw ->
        lower (path_suffix filepath) = ".json" ->
        faults w = [] ->
        json_loads raw = inl data ->
        needs_repair data = true ->
        trace w'
        = trace w ++
          [EvExists filepath; EvRead filepath;
           EvPrint "⚠️  Malformed JSON detected - repairing keys/values...";
           EvCopy filepath bak;
           EvPrint ("   Original saved as: " ++ path_name bak);
           EvWrite filepath (json_dump (normalize_json_keys data));
           EvPrint ("   Repaired JSON saved to: " ++ path_name filepath)]
        /\ fs w' bak = Some raw
        /\ fs w' filepath = Some (json_dump (normalize_json_keys data))).
Proof.
  intros Hrun bak. split; [|split].
  - intros pre q c post Ht.
    destruct (load_runs filepath w r w' Hrun)
      as [(_ & [E|[E|(m & E)]]) | (raw & m1 & m2 & c0 & tl & Efs & Esuf
                                   & E & Htl & Ew)];
      rewrite E in Ht; apply app_inv_head in Ht.
    + place_write Ht pre.
    + place_write Ht pre.
    + place_write Ht pre.
    + fold bak in Ht, Ew.
      pose proof (backup_path_differs filepath Esuf) as Hb. fold bak in Hb.
      assert (Hbak : fs w' bak = fs w filepath).
      { rewrite Ew, Efs. apply String.eqb_neq in Hb. rewrite Hb.
        now rewrite String.eqb_refl. }
      destruct Htl as [-> | (m3 & ->)]; simpl in Ht; place_write Ht pre;
        (split; [reflexivity|]); (split; [exact Hb|]);
        (split; [simpl; tauto|]);
        (split; [intros q' c' Hin; simpl in Hin;
                 repeat (destruct Hin as [Hin|Hin]; [discriminate|]);
                 exact Hin|]);
        (split; [congruence | exact Hbak]).
  - intro Hch.
    destruct (load_runs filepath w r w' Hrun)
      as [(E & _) | (raw & m1 & m2 & c0 & tl & Efs & Esuf & _ & _ & Ew)].
    + rewrite E in Hch. contradiction.
    + fold bak in Ew.
      pose proof (backup_path_differs filepath Esuf) as Hb. fold bak in Hb.
      split; [exact Hb|].
      rewrite Ew, Efs. apply String.eqb_neq in Hb. rewrite Hb.
      now rewrite String.eqb_refl.
  - intros raw data Efs Esuf Ef Ej En.
    destruct (load_repair filepath raw data w Efs Esuf Ef Ej En)
      as (r0 & w0 & E0 & Ht & Hb & Hp & _).
    rewrite Hrun in E0. injection E0 as <- <-. auto.
Qed.

Lemma backup_precedes_write_witness :
  let run := load_browsing_data (H:=sample_runtime) "export.json"
               (sample_world "export.json" "spaced" []) in
  fs (snd run) "export.json.bak" = Some "spaced"
  /\ fs (snd run) "export.json" = Some "date=2026-02-06".
Proof.
  intro run.
  destruct (backup_precedes_write (H:=sample_runtime) "export.json"
              (sample_world "export.json" "spaced" [])
              (fst run) (snd run) (surjective_pairing run))
    as (_ & _ & Hrep).
  destruct (Hrep "spaced" sample_spaced
              eq_refl eq_refl eq_refl eq_refl eq_refl) as (_ & Hb & Hp).
  split; [exact Hb | exact Hp].
Defined.

(** C10: for an existing path whose suffix, lowercased, is not
    [.json], [load_browsing_data] raises the [ValueError] of an
    unexpected file type after the existence probe alone: the file is
    not read, no file operation is attempted, the files are as they
    were, whatever the file holds and whatever [json.loads] would make of
    it.  This is neither the missing file, nor the undecodable text, nor
    the missing keys. *)
Theorem load_rejects_foreign_suffix `{Runtime} (filepath raw : string)
  (w : World) :
  fs w filepath = Some raw ->
  lower (path_suffix filepath) <> ".json" ->
  let run := load_browsing_data filepath w in
  fst run = Raise (ValueError (ExpectedJsonFile (path_suffix filepath)))
  /\ trace (snd run) = trace w ++ [EvExists filepath]
  /\ fs (snd run) = fs w
  /\ faults (snd run) = faults w
  /\ fst run <> Raise (FileNotFoundError filepath)
  /\ (forall e, fst run <> Raise (ValueError (InvalidJsonFormat e)))
  /\ (forall missing actual,
        fst run <> Raise (ValueError (MissingRequiredKeys missing actual))).
Proof.
  intros Efs Hs run. unfold run.
  rewrite (load_bad_suffix filepath raw w Efs Hs). simpl.
  repeat split; try reflexivity; intros; discriminate.
Qed.

Lemma load_rejects_foreign_suffix_witness :
  fst (load_browsing_data (H:=sample_runtime) "export.txt"
         (sample_world "export.txt" "clean" []))
  = Raise (ValueError (ExpectedJsonFile ".txt")).
Proof.
  apply (load_rejects_foreign_suffix (H:=sample_runtime)
           "export.txt" "clean" (sample_world "export.txt" "clean" [])).
  - reflexivity.
  - discriminate.
Defined.

(** C9, as the code has it: [save_digest] reads the clock itself, and
    the text it writes is determined by the digest, the date, the
    statistics and the minute of that reading.  Two runs on the same
    arguments whose clock readings fall in the same minute write the same
    text to the output path, which is the header with that minute, the
    digest and the closing note. *)
Theorem save_digest_determined_by_clock_minute `{Runtime}
  (digest output_path date : string) (stats : Stats) (w1 w2 : World) :
  faults w1 = [] -> faults w2 = [] ->
  strftime_Ymd_HM (clock w1) = strftime_Ymd_HM (clock w2) ->
  let run1 := save_digest digest output_path date stats w1 in
  let run2 := save_digest digest output_path date stats w2 in
  fs (snd run1) output_path = fs (snd run2) output_path
  /\ fs (snd run1) output_path
     = Some (full_content digest date (clock w1) stats)
  /\ fst run1 = Return tt /\ fst run2 = Return tt.
Proof.
  intros E1 E2 Hc run1 run2. unfold run1, run2.
  rewrite !save_digest_run by assumption. simpl.
  rewrite !String.eqb_refl.
  rewrite (full_content_clock digest date stats _ _ Hc). auto.
Qed.

Lemma save_digest_determined_by_clock_minute_witness :
  fs (snd (save_digest (H:=sample_runtime) "SUMMARY" "digest.md"
             "2025-01-19" sample_stats (clock_world noon))) "digest.md"
  = fs (snd (save_digest (H:=sample_runtime) "SUMMARY" "digest.md"
               "2025-01-19" sample_stats (clock_world seconds_later)))
       "digest.md".
Proof.
  apply (save_digest_determined_by_clock_minute (H:=sample_runtime)
           "SUMMARY" "digest.md" "2025-01-19" sample_stats
           (clock_world noon) (clock_world seconds_later));
    reflexivity.
Defined.

(** C9, as stated, fails: two runs of [save_digest] on the same digest,
    path, date and statistics, a minute apart, write different texts. *)
Lemma save_digest_depends_on_clock :
  fs (snd (save_digest (H:=sample_runtime) "SUMMARY" "digest.md"
             "2025-01-19" sample_stats (clock_world noon))) "digest.md"
  <> fs (snd (save_digest (H:=sample_runtime) "SUMMARY" "digest.md"
                "2025-01-19" sample_stats (clock_world minute_later)))
        "digest.md".
Proof. vm_compute. discriminate. Qed.

(* ================================================================== *)
(** * Further properties of the code *)

(** ** Record repair *)

(** X1: whatever it is given, [normalize_json_keys] returns a normalized
    value: at every depth no key is empty or has surrounding white
    space, no string value has surrounding white space, and the keys of
    each mapping are distinct. *)
Theorem normalize_output_is_normalized (obj : json) :
  normalized (normalize_json_keys obj) = true
  /\ dict_wf (normalize_json_keys obj) = true
  /\ (forall k, In k (all_keys (normalize_json_keys obj)) ->
                k <> "" /\ strip k = k).
Proof.
  split; [apply normalize_normalized|].
  split; [apply normalize_dict_wf|].
  intros k Hk.
  pose proof (normalized_keys _ (normalize_normalized obj) k Hk) as Hs.
  split; [|now apply strip_fixed_iff].
  clear Hs. revert k Hk.
  induction obj as [ |b|q|s|items IH|items IH] using json_induction;
    intros k Hk; try (now destruct Hk).
  - cbn [normalize_json_keys all_keys] in Hk.
    apply in_flat_map in Hk as (x & Hx & Hk).
    apply in_map_iff in Hx as (y & <- & Hy).
    rewrite Forall_forall in IH. eauto.
  - cbn [normalize_json_keys all_keys] in Hk.
    apply in_flat_map in Hk as (kv & Hkv & Hk).
    assert (F : Forall (fun kv => fst kv <> ""
                         /\ forall k, In k (all_keys (snd kv)) -> k <> "")
                  (fold_left
                     (fun acc kv =>
                        if truthy (strip (fst kv))
                        then dict_set (strip (fst kv))
                                      (normalize_json_keys (snd kv)) acc
                        else acc) items [])).
    { apply norm_fold_Forall; [|constructor].
      rewrite Forall_forall in IH. apply Forall_forall.
      intros x Hx Ht. cbn [fst snd]. split; [|now apply IH].
      unfold truthy in Ht. apply negb_true_iff in Ht.
      now apply String.eqb_neq in Ht. }
    rewrite Forall_forall in F. destruct (F kv Hkv) as [Hne Hin].
    destruct Hk as [<-|Hk]; [assumption | now apply Hin].
Qed.

Lemma dict_get_dict_set {V : Type} (k k' : string) (v : V)
  (d : list (string * V)) :
  dict_get k (dict_set k' v d)
  = if (k =? k')%string then Some v else dict_get k d.
Proof.
  unfold dict_get.
  induction d as [|[k1 v1] d IH]; simpl.
  - now destruct (k =? k')%string.
  - destruct (k' =? k1)%string eqn:E1; simpl.
    + apply String.eqb_eq in E1. subst k1.
      now destruct (k =? k')%string.
    + destruct (k =? k1)%string eqn:E2; simpl.
      * apply String.eqb_eq in E2. subst k1.
        rewrite String.eqb_sym in E1. now rewrite E1.
      * exact IH.
Qed.

Lemma find_app {A : Type} (f : A -> bool) (l1 l2 : list A) :
  find f (l1 ++ l2)
  = match find f l1 with Some x => Some x | None => find f l2 end.
Proof.
  induction l1 as [|x l1 IH]; simpl; [reflexivity|].
  now destruct (f x).
Qed.

Lemma norm_fold_get (k : string) (items acc : list (string * json)) :
  truthy k = true ->
  dict_get k
    (fold_left
       (fun acc kv =>
          if truthy (strip (fst kv))
          then dict_set (strip (fst kv)) (normalize_json_keys (snd kv)) acc
          else acc) items acc)
  = match find (fun kv => (k =? strip (fst kv))%string) (rev items) with
    | Some kv => Some (normalize_json_keys (snd kv))
    | None => dict_get k acc
    end.
Proof.
  intro Hk. revert acc.
  induction items as [|kv items IH]; intro acc; simpl; [reflexivity|].
  rewrite IH, find_app.
  destruct (find _ (rev items)); [reflexivity|]. simpl.
  destruct (truthy (strip (fst kv))) eqn:Et.
  - rewrite dict_get_dict_set. now destruct (k =? strip (fst kv))%string.
  - unfold truthy in Et, Hk. apply negb_false_iff in Et.
    apply String.eqb_eq in Et. rewrite Et.
    apply negb_true_iff in Hk. now rewrite Hk.
Qed.

Lemma norm_fold_no_empty_key (items : list (string * json)) :
  dict_get ""
    (fold_left
       (fun acc kv =>
          if truthy (strip (fst kv))
          then dict_set (strip (fst kv)) (normalize_json_keys (snd kv)) acc
          else acc) items [])
  = None.
Proof.
  assert (F : Forall (fun kv : string * json => fst kv <> "")
                (fold_left
                   (fun acc kv =>
                      if truthy (strip (fst kv))
                      then dict_set (strip (fst kv))
                                    (normalize_json_keys (snd kv)) acc
                      else acc) items [])).
  { apply norm_fold_Forall; [|constructor].
    apply Forall_forall. intros x _ Ht. cbn [fst].
    unfold truthy in Ht. apply negb_true_iff in Ht.
    now apply String.eqb_neq in Ht. }
  unfold dict_get. induction F as [|[a v] d Ha _ IH]; [reflexivity|].
  simpl in *. destruct a; [contradiction | exact IH].
Qed.

(** X2: when several keys of a mapping become the same key once
    stripped, the normalized mapping holds under that key the normalized
    value of the last of them; the values of the earlier ones are
    lost.  A key absent after stripping from all of them is absent from
    the result, and the empty key always is. *)
Theorem normalize_last_colliding_key_wins (items : list (string * json))
  (k : string) :
  exists d,
    normalize_json_keys (JDict items) = JDict d
    /\ dict_get k d
       = if truthy k
         then option_map (fun kv => normalize_json_keys (snd kv))
                (find (fun kv => (k =? strip (fst kv))%string) (rev items))
         else None.
Proof.
  eexists. split; [reflexivity|].
  destruct (truthy k) eqn:Hk.
  - rewrite norm_fold_get by assumption.
    now destruct (find _ (rev items)).
  - unfold truthy in Hk. apply negb_false_iff, String.eqb_eq in Hk.
    subst k. apply norm_fold_no_empty_key.
Qed.

Lemma set_add_grows (k : string) (s : list string) :
  NoDup s -> NoDup (set_add k s) /\ exists more, set_add k s = s ++ more.
Proof.
  intro Hs. unfold set_add. destruct (mem k s) eqn:E.
  - split; [assumption|]. exists []. now rewrite app_nil_r.
  - split; [|now exists [k]].
    apply mem_false in E. apply NoDup_app; [assumption | | ].
    + repeat constructor. intros [].
    + intros x Hx [<-|[]]. contradiction.
Qed.

Lemma collect_keys_grows (obj : json) :
  forall keys,
    NoDup keys ->
    NoDup (_collect_keys obj keys)
    /\ exists more, _collect_keys obj keys = keys ++ more.
Proof.
  induction obj as [ |b|q|s|items IH|items IH] using json_induction;
    intros keys Hk;
    try (split; [assumption | exists []; now rewrite app_nil_r]).
  - cbn [_collect_keys]. revert keys Hk.
    induction IH as [|x l Hx _ IHl]; intros keys Hk; simpl.
    + split; [assumption | exists []; now rewrite app_nil_r].
    + destruct (Hx keys Hk) as (Hn & more & E).
      destruct (IHl _ Hn) as (Hn' & more' & E').
      split; [assumption|]. exists (more ++ more').
      now rewrite E', E, app_assoc.
  - cbn [_collect_keys]. revert keys Hk.
    induction IH as [|[a v] l Hx _ IHl]; intros keys Hk; simpl.
    + split; [assumption | exists []; now rewrite app_nil_r].
    + destruct (set_add_grows a keys Hk) as (Ha & m0 & E0).
      simpl in Hx. destruct (Hx _ Ha) as (Hn & more & E).
      destruct (IHl _ Hn) as (Hn' & more' & E').
      split; [assumption|]. exists (m0 ++ more ++ more').
      now rewrite E', E, E0, <- !app_assoc.
Qed.

(** X3: [_collect_keys] adds to the set it is given every key of every
    mapping of the value, at any depth, and nothing else; the set only
    grows, and holds no key twice. *)
Theorem collect_keys_collects_all_keys (obj : json) (keys : list string) :
  NoDup keys ->
  NoDup (_collect_keys obj keys)
  /\ (exists more, _collect_keys obj keys = keys ++ more)
  /\ (forall k, In k (_collect_keys obj keys) <->
                In k keys \/ In k (all_keys obj)).
Proof.
  intro Hk. destruct (collect_keys_grows obj keys Hk) as [Hn Hm].
  split; [assumption|]. split; [assumption|].
  intro k. apply collect_keys_In.
Qed.

Lemma collect_keys_collects_all_keys_witness :
  NoDup (_collect_keys sample_clean ["date"]).
Proof.
  apply (collect_keys_collects_all_keys sample_clean ["date"]).
  repeat constructor; simpl; tauto.
Defined.

Ltac settle_validation_eq :=
  repeat match goal with
    | |- context [match ?d with JNull => _ | _ => _ end] =>
        destruct d eqn:?; simpl
    | |- context [mem ?k ?l] => destruct (mem k l) eqn:?; simpl
    end.

Section LoadMore.
Context `{Runtime}.

(** What a returning run has gone through. *)
Lemma load_return_inv (filepath : string) (w : World) (data : json)
  (w' : World) :
  load_browsing_data filepath w = (Return data, w') ->
  exists raw parsed items,
    fs w filepath = Some raw
    /\ lower (path_suffix filepath) = ".json"
    /\ json_loads raw = inl parsed
    /\ data = (if needs_repair parsed then normalize_json_keys parsed
               else parsed)
    /\ data = JDict items
    /\ mem "date" (dict_keys items) = true
    /\ mem "pages" (dict_keys items) = true
    /\ fs w' filepath
       = Some (if needs_repair parsed then json_dump data else raw).
Proof.
  run_load.
  destruct (fs w filepath) as [raw|] eqn:Efs; simpl; [|discriminate].
  destruct (lower (path_suffix filepath) =? ".json")%string eqn:Esuf; simpl;
    [|discriminate].
  apply String.eqb_eq in Esuf.
  destruct (faults w) as [|[n|] fl] eqn:Ef; simpl; rewrite ?Efs;
    [| discriminate |].
  - destruct (json_loads raw) as [parsed|e] eqn:Ej; simpl; [|discriminate].
    destruct (needs_repair parsed) eqn:En; simpl; rewrite ?Ef, ?Efs; simpl;
      rewrite ?Ef; simpl;
      settle_validation_eq; intros [= <- <-]; simpl;
      rewrite ?String.eqb_refl, ?Efs;
      exists raw, parsed; eexists; repeat split; subst; rewrite ?En;
          try congruence; eauto.
  - destruct (json_loads raw) as [parsed|e] eqn:Ej; simpl; [|discriminate].
    destruct (needs_repair parsed) eqn:En; simpl; rewrite ?Efs; simpl.
    + destruct fl as [|[n|] fl]; simpl; rewrite ?Efs; simpl;
        [| discriminate |].
      * settle_validation_eq; intros [= <- <-]; simpl;
          rewrite ?String.eqb_refl;
          exists raw, parsed; eexists; repeat split; subst; rewrite ?En;
          try congruence; eauto.
      * destruct fl as [|[n|] fl]; simpl; [| discriminate |];
          settle_validation_eq; intros [= <- <-]; simpl;
          rewrite ?String.eqb_refl;
          exists raw, parsed; eexists; repeat split; subst; rewrite ?En;
          try congruence; eauto.
    + settle_validation_eq; intros [= <- <-]; simpl; rewrite ?Efs;
        exists raw, parsed; eexists; repeat split; subst; rewrite ?En;
          try congruence; eauto.
Qed.

End LoadMore.

(** X4: a run of [load_browsing_data] that returns, returns a mapping
    that has the keys [date] and [pages] and needs no repair: it is the
    parsed content of a [.json] file, as parsed or normalized, and the
    file then holds the text read, or the dump of what is returned. *)
Theorem load_returns_valid_record `{Runtime} (filepath : string) (w : World)
  (data : json) (w' : World) :
  load_browsing_data filepath w = (Return data, w') ->
  needs_repair data = false
  /\ (exists items,
        data = JDict items
        /\ dict_get "date" items <> None /\ dict_get "pages" items <> None)
  /\ (exists raw parsed,
        fs w filepath = Some raw /\ json_loads raw = inl parsed
        /\ lower (path_suffix filepath) = ".json"
        /\ ((needs_repair parsed = false /\ data = parsed
             /\ fs w' filepath = Some raw)
            \/ (needs_repair parsed = true
                /\ data = normalize_json_keys parsed
                /\ fs w' filepath = Some (json_dump data)))).
Proof.
  intro Hrun.
  destruct (load_return_inv _ _ _ _ Hrun)
    as (raw & parsed & items & Efs & Esuf & Ej & Ed & Ei & Hd & Hp & Ew).
  assert (Hget : forall k, mem k (dict_keys items) = true ->
                           dict_get k items <> None).
  { clear. intros k Hk. unfold dict_get.
    induction items as [|[a v] items IH]; simpl in *; [discriminate|].
    destruct (k =? a)%string; [discriminate | now apply IH]. }
  split; [|split].
  - rewrite Ed. destruct (needs_repair parsed) eqn:En; [|exact En].
    apply needs_repair_normalized, normalize_normalized.
  - exists items. auto.
  - exists raw, parsed. repeat split; try assumption.
    destruct (needs_repair parsed); [right | left]; auto.
Qed.

Lemma load_returns_valid_record_witness :
  needs_repair
    (normalize_json_keys sample_spaced) = false.
Proof.
  pose (run := load_browsing_data (H:=sample_runtime) "export.json"
                 (sample_world "export.json" "spaced" [])).
  apply (load_returns_valid_record (H:=sample_runtime) "export.json"
           (sample_world "export.json" "spaced" [])
           (normalize_json_keys sample_spaced) (snd run)).
  reflexivity.
Defined.

(** X5: loading again after a load that returned, with a [json.loads]
    that reads back the dump of the returned record, returns the same
    record and performs the probe and the read only: the second load
    repairs nothing and writes nothing. *)
Theorem load_twice_is_clean `{Runtime} (filepath : string) (w : World) (data : json)
  (w' : World) :
  load_browsing_data filepath w = (Return data, w') ->
  json_loads (json_dump data) = inl data ->
  faults w' = [] ->
  load_browsing_data filepath w'
  = (Return data,
     mkWorld (fs w') (clock w') []
             (trace w' ++ [EvExists filepath; EvRead filepath])).
Proof.
  intros Hrun Hrt Ef.
  destruct (load_return_inv _ _ _ _ Hrun)
    as (raw & parsed & items & Efs & Esuf & Ej & Ed & Ei & Hd & Hp & Ew).
  assert (Hn : needs_repair data = false).
  { rewrite Ed. destruct (needs_repair parsed) eqn:En; [|exact En].
    apply needs_repair_normalized, normalize_normalized. }
  assert (Hl : exists raw', fs w' filepath = Some raw'
                            /\ json_loads raw' = inl data).
  { destruct (needs_repair parsed).
    - exists (json_dump data). auto.
    - exists raw. split; [assumption | congruence]. }
  destruct Hl as (raw' & Efs' & Ej').
  destruct (load_no_repair filepath raw' data w' Efs' Esuf Ef Ej' Hn)
    as (r & Er & Hr & _).
  rewrite Er. f_equal. now apply (Hr items).
Qed.

Lemma load_twice_is_clean_witness :
  let run := load_browsing_data (H:=sample_runtime_rt) "export.json"
               (sample_world "export.json" "spaced" []) in
  fst (load_browsing_data (H:=sample_runtime_rt) "export.json" (snd run))
  = Return sample_repaired.
Proof.
  intro run.
  rewrite (load_twice_is_clean (H:=sample_runtime_rt) "export.json"
             (sample_world "export.json" "spaced" [])
             sample_repaired (snd run));
    reflexivity.
Defined.

(** X6: when the text of an existing [.json] file does not parse,
    [load_browsing_data] raises the [ValueError] of an invalid format
    after the probe and the read; no file is changed, no backup is
    made. *)
Theorem load_rejects_undecodable_text `{Runtime} (filepath raw e : string)
  (w : World) :
  fs w filepath = Some raw ->
  lower (path_suffix filepath) = ".json" ->
  faults w = [] ->
  json_loads raw = inr e ->
  load_browsing_data filepath w
  = (Raise (ValueError (InvalidJsonFormat e)),
     mkWorld (fs w) (clock w) []
             (trace w ++ [EvExists filepath; EvRead filepath])).
Proof.
  intros Efs Esuf Ef Ej. apply String.eqb_eq in Esuf.
  run_load. rewrite Efs. simpl. rewrite Esuf. simpl.
  rewrite Ef. simpl. rewrite Efs. simpl. rewrite Ej. simpl.
  now rewrite <- app_assoc.
Qed.

Lemma load_rejects_undecodable_text_witness :
  fst (load_browsing_data (H:=sample_runtime) "export.json"
         (sample_world "export.json" "{" []))
  = Raise (ValueError (InvalidJsonFormat "Expecting value")).
Proof.
  rewrite (load_rejects_undecodable_text (H:=sample_runtime)
             "export.json" "{" "Expecting value"
             (sample_world "export.json" "{" []));
    reflexivity.
Defined.

(** X7: when the file parses to a value that is not a mapping (a
    sequence, a string, a number), [load_browsing_data] raises
    [AttributeError], which is none of the errors its caller handles;
    if the value needed repair, the backup has been made and the file
    rewritten by then. *)
Theorem load_of_non_mapping_raises `{Runtime} (filepath raw : string) (data : json)
  (w : World) :
  fs w filepath = Some raw ->
  lower (path_suffix filepath) = ".json" ->
  faults w = [] ->
  json_loads raw = inl data ->
  (forall items, data <> JDict items) ->
  let run := load_browsing_data filepath w in
  fst run = Raise AttributeError
  /\ fs (snd run) filepath
     = Some (if needs_repair data
             then json_dump (normalize_json_keys data) else raw)
  /\ (needs_repair data = true ->
      fs (snd run) (with_suffix filepath ".json.bak") = Some raw).
Proof.
  intros Efs Esuf Ef Ej Hnd run. unfold run. clear run.
  pose proof (backup_path_differs filepath Esuf) as Hb.
  apply String.eqb_neq in Hb.
  apply String.eqb_eq in Esuf.
  run_load. rewrite Efs. simpl. rewrite Esuf. simpl.
  rewrite Ef. simpl. rewrite Efs. simpl. rewrite Ej. simpl.
  destruct (needs_repair data) eqn:En; simpl;
    repeat (rewrite ?Ef, ?Efs; simpl).
  - destruct data as [ |b|q|s|items|items]; simpl;
      try (rewrite String.eqb_refl, Hb, String.eqb_refl; auto).
    now destruct (Hnd items).
  - destruct data as [ |b|q|s|items|items]; simpl;
      try (rewrite Efs; split; [reflexivity | split;
                                [reflexivity | discriminate]]).
    now destruct (Hnd items).
Qed.

Lemma load_of_non_mapping_raises_witness :
  fst (load_browsing_data (H:=sample_runtime_rt) "export.json"
         (sample_world "export.json" "listed" []))
  = Raise AttributeError.
Proof.
  apply (load_of_non_mapping_raises (H:=sample_runtime_rt)
           "export.json" "listed" sample_listed
           (sample_world "export.json" "listed" []));
    try reflexivity.
  intros items. discriminate.
Defined.

(** ** The ranker *)

Lemma first_occurrences_nil_iff (l : list PageVisit) :
  first_occurrences [] l = [] <-> l = [].
Proof.
  destruct l as [|p l]; simpl; [tauto|]. split; discriminate.
Qed.

Lemma sorted_nil_inv {A : Type} (le : A -> A -> bool) (l : list A) :
  sorted le l = [] -> l = [].
Proof.
  intro E. pose proof (sorted_perm le l) as P. rewrite E in P.
  now apply Permutation_nil in P.
Qed.

(** X8: the ranking is empty exactly when [top_n] is zero or negative,
    or no page of the record is eligible (among them: no [pages] key, no
    page). *)
Theorem get_top_pages_empty_iff (data : BrowsingRecord) (top_n : Z) :
  get_top_pages data top_n = [] <->
  (top_n <= 0)%Z
  \/ forall p, In p (get (data_pages data) []) -> ~ eligible p.
Proof.
  rewrite get_top_pages_spec. split.
  - intro E. destruct (Z.leb_spec top_n 0) as [Hle|Hgt]; [now left|].
    right. intros p Hp He.
    assert (Hv : In p (valid_pages data)) by (apply valid_pages_In; auto).
    destruct (Z.to_nat top_n) as [|n] eqn:En; [lia|].
    destruct (first_occurrences [] (sorted_pages data)) as [|x l] eqn:Ef;
      [|discriminate].
    apply (proj1 (first_occurrences_nil_iff _)) in Ef.
    apply sorted_nil_inv in Ef. rewrite Ef in Hv. destruct Hv.
  - intros [Hle|Hno].
    + replace (Z.to_nat top_n) with 0 by lia. reflexivity.
    + assert (Ev : valid_pages data = []).
      { destruct (valid_pages data) as [|p l] eqn:Ev; [reflexivity|].
        assert (Hp : In p (valid_pages data)) by (rewrite Ev; now left).
        apply valid_pages_In in Hp as [Hp He]. now destruct (Hno p Hp). }
      unfold sorted_pages. rewrite Ev. simpl. apply firstn_nil.
Qed.

Lemma firstn_extends {A : Type} (n m : nat) (l : list A) :
  n <= m -> exists more, firstn m l = firstn n l ++ more.
Proof.
  revert m l. induction n as [|n IH]; intros m l Hle.
  - exists (firstn m l). reflexivity.
  - destruct m as [|m]; [lia|]. destruct l as [|x l].
    + exists []. reflexivity.
    + destruct (IH m l) as [more E]; [lia|].
      exists more. simpl. now rewrite E.
Qed.

(** X9: asking for more pages extends the ranking and changes none of
    its entries: for [n <= m] the ranking for [n] is the beginning of the
    ranking for [m]. *)
Theorem get_top_pages_extends (data : BrowsingRecord) (n m : Z) :
  (n <= m)%Z ->
  exists more, get_top_pages data m = get_top_pages data n ++ more.
Proof.
  intro Hle. rewrite !get_top_pages_spec.
  apply firstn_extends. lia.
Qed.

Lemma get_top_pages_extends_witness :
  exists more,
    get_top_pages (sample_record [sample_p0; sample_p1; sample_p2]) 3
    = get_top_pages (sample_record [sample_p0; sample_p1; sample_p2]) 1
      ++ more.
Proof.
  apply (get_top_pages_extends
           (sample_record [sample_p0; sample_p1; sample_p2]) 1 3).
  discriminate.
Defined.

Lemma sorted_of_sorted {A : Type} (le : A -> A -> bool) (l : list A) :
  StronglySorted (fun x y => le x y = true) l -> sorted le l = l.
Proof.
  induction 1 as [|x l Hl IH Hx]; [reflexivity|].
  simpl. fold (sorted le l). rewrite IH.
  destruct l as [|y l]; [reflexivity|]. simpl.
  inversion Hx as [|? ? Hxy _]; subst. now rewrite Hxy.
Qed.

Lemma first_occurrences_of_distinct (l : list PageVisit) :
  forall seen,
    (forall p, In p l -> mem (dedup_key p) seen = false) ->
    NoDup (map dedup_key l) ->
    first_occurrences seen l = l.
Proof.
  induction l as [|x l IH]; intros seen Hs Hn; simpl; [reflexivity|].
  rewrite (Hs x) by now left. f_equal.
  inversion Hn as [|? ? Hx Hl]; subst. apply IH; [|assumption].
  intros p Hp. rewrite mem_set_add, (Hs p) by now right.
  rewrite orb_false_r. apply String.eqb_neq. intro E.
  apply Hx. rewrite <- E. now apply in_map.
Qed.

(** X10: ranking is idempotent: the ranking of a record whose pages are
    a ranking is that ranking. *)
Theorem get_top_pages_idempotent (data : BrowsingRecord) (top_n : Z)
  (date : option string) (total : option Q) :
  get_top_pages
    (mkRecord date (Some (get_top_pages data top_n)) total) top_n
  = get_top_pages data top_n.
Proof.
  set (res := get_top_pages data top_n).
  assert (Hv : forall p, In p res -> is_valid_page p = true).
  { intros p Hp. apply get_top_pages_In in Hp.
    apply valid_pages_In in Hp as [_ He]. now apply is_valid_page_spec. }
  assert (Hs : StronglySorted (fun p q => rank_le p q = true) res).
  { unfold res. rewrite get_top_pages_spec.
    apply StronglySorted_firstn, StronglySorted_first_occurrences.
    apply sorted_StronglySorted; [apply rank_le_total | apply rank_le_trans]. }
  assert (Hn : NoDup (map dedup_key res)).
  { unfold res. rewrite get_top_pages_spec, <- firstn_map.
    apply NoDup_firstn, first_occurrences_nodup. }
  assert (Hl : List.length res <= Z.to_nat top_n).
  { unfold res. rewrite get_top_pages_spec, length_firstn. lia. }
  rewrite get_top_pages_spec. unfold sorted_pages, valid_pages. simpl.
  assert (Ef : filter is_valid_page res = res).
  { clear - Hv. induction res as [|x l IH]; [reflexivity|]. simpl.
    rewrite (Hv x) by now left. f_equal. apply IH.
    intros p Hp. apply Hv. now right. }
  rewrite Ef, (sorted_of_sorted rank_le res Hs).
  rewrite first_occurrences_of_distinct by (auto || reflexivity).
  now apply firstn_all2.
Qed.

Lemma sorted_head_first {A : Type} (R : A -> A -> Prop) (x : A)
  (l : list A) (y : A) :
  (forall z, R z z) ->
  StronglySorted R (x :: l) -> In y (x :: l) -> R x y.
Proof.
  intros Hrefl Hs [<-|Hy]; [apply Hrefl|].
  inversion Hs as [|? ? _ Hx]; subst.
  rewrite Forall_forall in Hx. now apply Hx.
Qed.

Lemma ranks_before_refl (p : PageVisit) : ranks_before p p.
Proof. right. split; [reflexivity | lia]. Qed.

(** X11: the first entry of a ranking has the greatest reading time of
    all eligible pages of the record, and among the eligible pages of
    that reading time the longest content. *)
Theorem get_top_pages_head_is_greatest (data : BrowsingRecord) (top_n : Z)
  (p : PageVisit) (rest : list PageVisit) (q : PageVisit) :
  get_top_pages data top_n = p :: rest ->
  In q (get (data_pages data) []) -> eligible q ->
  (reading_time q <= reading_time p)%Q
  /\ ((reading_time q == reading_time p)%Q ->
      content_length q <= content_length p).
Proof.
  intros E Hq He.
  assert (Hq' : In q (sorted_pages data)).
  { apply sorted_pages_In, valid_pages_In. auto. }
  rewrite get_top_pages_spec in E.
  pose proof (sorted_pages_sorted data) as Hs.
  destruct (sorted_pages data) as [|x l] eqn:El; [destruct Hq'|].
  simpl in E. destruct (Z.to_nat top_n) as [|n]; [discriminate|].
  simpl in E. injection E as <- _.
  pose proof (sorted_head_first _ x l q ranks_before_refl Hs Hq') as Hr.
  destruct Hr as [Hlt|[Heq Hle]]; split; intros; try lra; try lia.
Qed.

Lemma get_top_pages_head_is_greatest_witness :
  (reading_time sample_less <= reading_time sample_more)%Q.
Proof.
  apply (get_top_pages_head_is_greatest
           (sample_record [sample_less; sample_more]) 15
           sample_more [] sample_less).
  - reflexivity.
  - now left.
  - apply is_valid_page_spec. reflexivity.
Defined.

Lemma StronglySorted_app_r {A : Type} (R : A -> A -> Prop)
  (l1 l2 : list A) :
  StronglySorted R (l1 ++ l2) -> StronglySorted R l2.
Proof.
  induction l1 as [|x l1 IH]; simpl; [trivial|].
  intro Hs. inversion Hs; subst. now apply IH.
Qed.

Lemma first_occurrences_represents (l : list PageVisit) :
  forall seen p,
    In p l -> mem (dedup_key p) seen = false ->
    exists pre q post,
      l = pre ++ q :: post
      /\ In q (first_occurrences seen l)
      /\ dedup_key q = dedup_key p
      /\ In p (q :: post).
Proof.
  induction l as [|x l IH]; intros seen p Hp Hs; [destruct Hp|].
  simpl. destruct (mem (dedup_key x) seen) eqn:Ex.
  - destruct Hp as [->|Hp]; [congruence|].
    destruct (IH seen p Hp Hs) as (pre & q & post & -> & Hq & Hk & Hin).
    exists (x :: pre), q, post. auto.
  - destruct (String.eqb_spec (dedup_key x) (dedup_key p)) as [Ek|Ek].
    + exists [], x, l. repeat split; auto. now left.
    + destruct Hp as [->|Hp]; [congruence|].
      destruct (IH (set_add (dedup_key x) seen) p Hp)
        as (pre & q & post & -> & Hq & Hk & Hin).
      { rewrite mem_set_add, Hs, orb_false_r.
        apply String.eqb_neq. congruence. }
      exists (x :: pre), q, post. repeat split; auto. now right.
Qed.

Lemma first_occurrences_length (l : list PageVisit) :
  forall seen,
    List.length (first_occurrences seen l) <= List.length l.
Proof.
  induction l as [|x l IH]; intro seen; simpl; [lia|].
  destruct (mem (dedup_key x) seen); simpl;
    [specialize (IH seen) | specialize (IH (set_add (dedup_key x) seen))];
    lia.
Qed.

(** X12: deduplication loses no key: when [top_n] is at least the number
    of eligible pages, every eligible page of the record has in the
    ranking an entry of its deduplication key that stands no lower in the
    order than the page itself. *)
Theorem get_top_pages_represents_every_key (data : BrowsingRecord)
  (top_n : Z) (p : PageVisit) :
  (Z.of_nat (List.length (valid_pages data)) <= top_n)%Z ->
  In p (get (data_pages data) []) -> eligible p ->
  exists q,
    In q (get_top_pages data top_n)
    /\ dedup_key q = dedup_key p
    /\ ranks_before q p.
Proof.
  intros Hn Hp He.
  assert (Hs : In p (sorted_pages data)).
  { apply sorted_pages_In, valid_pages_In. auto. }
  destruct (first_occurrences_represents _ [] p Hs eq_refl)
    as (pre & q & post & El & Hq & Hk & Hin).
  exists q. split; [|split; [assumption|]].
  - rewrite get_top_pages_spec, firstn_all2; [assumption|].
    pose proof (first_occurrences_length (sorted_pages data) []) as Hlen.
    assert (Hperm : List.length (sorted_pages data)
                    = List.length (valid_pages data)).
    { apply Permutation_length, sorted_perm. }
    lia.
  - pose proof (sorted_pages_sorted data) as Hsort.
    rewrite El in Hsort. apply StronglySorted_app_r in Hsort.
    apply (sorted_head_first _ q post p ranks_before_refl Hsort Hin).
Qed.

Lemma get_top_pages_represents_every_key_witness :
  exists q,
    In q (get_top_pages (sample_record [sample_less; sample_more]) 2)
    /\ dedup_key q = dedup_key sample_less
    /\ ranks_before q sample_less.
Proof.
  apply (get_top_pages_represents_every_key
           (sample_record [sample_less; sample_more]) 2 sample_less).
  - discriminate.
  - now left.
  - apply is_valid_page_spec. reflexivity.
Defined.

(** ** The budgeter *)

Lemma content_parts_nil_iff `{Runtime} (data : BrowsingRecord)
  (max_tokens : Z) :
  content_parts data max_tokens = [] <->
  match all_blocks data with
  | [] => True
  | b :: _ => (inject_Z max_tokens < page_tokens b)%Q
  end.
Proof.
  unfold content_parts, all_blocks.
  destruct (sorted timestamp_le (get (data_pages data) [])) as [|page rest];
    simpl; [tauto|].
  destruct (Qgtb _ _) eqn:E.
  - apply Qgtb_spec in E. split; [intros _; lra | reflexivity].
  - apply Qgtb_false in E. rewrite budget_loop_acc. simpl.
    split; [discriminate | intro; lra].
Qed.

Lemma join_of_blocks_nonempty `{Runtime} (page : PageVisit)
  (rest : list string) :
  join nl (page_text page :: rest) <> "".
Proof.
  destruct rest as [|b rest]; [discriminate|].
  rewrite join_cons by discriminate. discriminate.
Qed.

(** X13: the output of the budgeter is the empty string exactly when the
    record has no page or the block of the page with the least timestamp
    alone exceeds the budget, whatever the later pages are. *)
Theorem budgeter_output_empty_iff `{Runtime} (data : BrowsingRecord)
  (max_tokens : Z) :
  prepare_content_for_llm data max_tokens = "" <->
  match all_blocks data with
  | [] => True
  | b :: _ => (inject_Z max_tokens < page_tokens b)%Q
  end.
Proof.
  rewrite prepare_is_join, <- content_parts_nil_iff.
  split; [|now intros ->].
  intro E. destruct (content_parts data max_tokens) as [|b rest] eqn:Ec;
    [reflexivity|].
  exfalso.
  assert (Hb : In b (all_blocks data)).
  { rewrite (content_parts_prefix data max_tokens) in Ec.
    apply (In_firstn (List.length (content_parts data max_tokens))).
    rewrite Ec. now left. }
  apply in_map_iff in Hb as (page & <- & _).
  now apply (join_of_blocks_nonempty page rest).
Qed.

Lemma page_text_length `{Runtime} (page : PageVisit) :
  28 <= String.length (page_text page).
Proof.
  unfold page_text. rewrite !length_append. simpl. lia.
Qed.

(** X14: every block has at least 28 characters, so a budget below 7
    accepts no block: the output is then empty whatever the record. *)
Theorem budgeter_small_budget `{Runtime} (data : BrowsingRecord)
  (max_tokens : Z) :
  (max_tokens < 7)%Z ->
  content_parts data max_tokens = []
  /\ prepare_content_for_llm data max_tokens = "".
Proof.
  intro Hm.
  assert (E : content_parts data max_tokens = []).
  { apply content_parts_nil_iff.
    destruct (all_blocks data) as [|b rest] eqn:Eb; [exact I|].
    assert (Hb : In b (all_blocks data)) by (rewrite Eb; now left).
    apply in_map_iff in Hb as (page & <- & _).
    pose proof (page_text_length page) as Hl.
    unfold page_tokens, tokens_per_char.
    rewrite Zlt_Qlt in Hm.
    assert (Hq : (inject_Z 28 <= inject_Z (Z.of_nat
                                   (String.length (page_text page))))%Q).
    { rewrite <- Zle_Qle. lia. }
    change (inject_Z 7) with (7 # 1)%Q in Hm.
    change (inject_Z 28) with (28 # 1)%Q in Hq.
    lra. }
  split; [exact E|]. now rewrite prepare_is_join, E.
Qed.

Lemma budgeter_small_budget_witness :
  prepare_content_for_llm (H:=sample_runtime)
    (sample_record [sample_p0; sample_p1; sample_p2]) 6 = "".
Proof.
  apply (budgeter_small_budget (H:=sample_runtime)
           (sample_record [sample_p0; sample_p1; sample_p2]) 6).
  reflexivity.
Defined.

Lemma ascii_compare_lt_trans (a b c : ascii) :
  Ascii.compare a b = Lt -> Ascii.compare b c = Lt ->
  Ascii.compare a c = Lt.
Proof.
  unfold Ascii.compare. rewrite !N.compare_lt_iff. apply N.lt_trans.
Qed.

Lemma string_compare_lt_trans (s1 : string) :
  forall s2 s3,
    String.compare s1 s2 = Lt -> String.compare s2 s3 = Lt ->
    String.compare s1 s3 = Lt.
Proof.
  induction s1 as [|c1 s1 IH]; intros [|c2 s2] [|c3 s3]; simpl;
    try discriminate; try reflexivity.
  destruct (Ascii.compare c1 c2) eqn:E12; try discriminate;
    destruct (Ascii.compare c2 c3) eqn:E23; try discriminate; intros H1 H2.
  - apply Ascii.compare_eq_iff in E12, E23. subst.
    replace (Ascii.compare c3 c3) with Eq; [now apply (IH s2)|].
    symmetry. unfold Ascii.compare. apply N.compare_refl.
  - apply Ascii.compare_eq_iff in E12. subst. now rewrite E23.
  - apply Ascii.compare_eq_iff in E23. subst. now rewrite E12.
  - now rewrite (ascii_compare_lt_trans _ _ _ E12 E23).
Qed.

Lemma string_leb_trans (s1 s2 s3 : string) :
  String.leb s1 s2 = true -> String.leb s2 s3 = true ->
  String.leb s1 s3 = true.
Proof.
  unfold String.leb.
  destruct (String.compare s1 s2) eqn:E12; try discriminate;
    destruct (String.compare s2 s3) eqn:E23; try discriminate; intros _ _.
  - apply String.compare_eq_iff in E12. subst. now rewrite E23.
  - apply String.compare_eq_iff in E12. subst. now rewrite E23.
  - apply String.compare_eq_iff in E23. subst. now rewrite E12.
  - now rewrite (string_compare_lt_trans _ _ _ E12 E23).
Qed.

Lemma timestamp_le_trans (p q r : PageVisit) :
  timestamp_le p q = true -> timestamp_le q r = true ->
  timestamp_le p r = true.
Proof. unfold timestamp_le. apply string_leb_trans. Qed.

Lemma timestamp_tie (z y : PageVisit) :
  timestamp_le z y && timestamp_le y z
  = (get (timestamp z) "" =? get (timestamp y) "")%string.
Proof.
  unfold timestamp_le.
  destruct (String.eqb_spec (get (timestamp z) "") (get (timestamp y) ""))
    as [E|N].
  - rewrite E.
    destruct (String.leb_total (get (timestamp y) "")
                               (get (timestamp y) "")) as [L|L];
      now rewrite L.
  - apply andb_false_iff.
    destruct (String.leb (get (timestamp z) "") (get (timestamp y) ""))
      eqn:L1; [|now left].
    destruct (String.leb (get (timestamp y) "") (get (timestamp z) ""))
      eqn:L2; [|now right].
    destruct N. now apply String.leb_antisym.
Qed.

(** X15: the budgeter takes the pages in one order, a rearrangement of
    the record's pages sorted by timestamp, in which the pages of any
    one timestamp (the absent timestamp counting as the empty string)
    keep the order they have in the record. *)
Theorem budgeter_order_is_stable `{Runtime} (data : BrowsingRecord) :
  exists ordered,
    all_blocks data = map page_text ordered
    /\ (forall max_tokens,
          content_parts data max_tokens
          = budget_loop max_tokens ordered [] 0%Q)
    /\ Permutation ordered (get (data_pages data) [])
    /\ Sorted (fun p q => String.leb (get (timestamp p) "")
                                     (get (timestamp q) "") = true)
              ordered
    /\ forall ts,
         filter (fun p => (ts =? get (timestamp p) "")%string) ordered
         = filter (fun p => (ts =? get (timestamp p) "")%string)
                  (get (data_pages data) []).
Proof.
  exists (sorted timestamp_le (get (data_pages data) [])).
  split; [reflexivity|]. split; [reflexivity|].
  split; [apply sorted_perm|].
  split; [apply (sorted_Sorted timestamp_le timestamp_le_total)|].
  intro ts.
  pose (z := mkPage None None None None (Some ts) None).
  assert (Hz : forall y,
             (ts =? get (timestamp y) "")%string
             = timestamp_le z y && timestamp_le y z).
  { intro y. now rewrite timestamp_tie. }
  rewrite (filter_ext _ _ Hz).
  rewrite (filter_ext _ _ Hz (get (data_pages data) [])).
  apply (sorted_stable timestamp_le z). apply timestamp_le_trans.
Qed.

(** ** The appendix *)







Lemma replace_char_app (c : ascii) (r s t : string) :
  replace_char c r (s ++ t)
  = (replace_char c r s ++ replace_char c r t)%string.
Proof.
  induction s as [|a s IH]; simpl; [reflexivity|].
  destruct (Ascii.eqb a c); rewrite IH; [now rewrite append_assoc|].
  reflexivity.
Qed.

Lemma has_char_app (c : ascii) (s t : string) :
  has_char c (s ++ t) = has_char c s || has_char c t.
Proof.
  induction s as [|a s IH]; simpl; [reflexivity|].
  now rewrite IH, orb_assoc.
Qed.

(** The chain of replacements acts character by character. *)
Lemma escape_title_cons (c : ascii) (t : string) :
  escape_title (String c t)
  = ((if Ascii.eqb c "[" then String backslash "["
      else if Ascii.eqb c "]" then String backslash "]"
      else if Ascii.eqb c "(" then String backslash "("
      else if Ascii.eqb c ")" then String backslash ")"
      else if Ascii.eqb c "<" then "&lt;"
      else if Ascii.eqb c ">" then "&gt;"
      else String c "")
     ++ escape_title t)%string.
Proof.
  unfold escape_title. cbn [replace_char].
  destruct (Ascii.eqb_spec c "[") as [->|N1]; [reflexivity|].
  cbn [replace_char].
  destruct (Ascii.eqb_spec c "]") as [->|N2]; [reflexivity|].
  cbn [replace_char].
  destruct (Ascii.eqb_spec c "(") as [->|N3]; [reflexivity|].
  cbn [replace_char].
  destruct (Ascii.eqb_spec c ")") as [->|N4]; [reflexivity|].
  cbn [replace_char].
  destruct (Ascii.eqb_spec c "<") as [->|N5]; [reflexivity|].
  cbn [replace_char].
  destruct (Ascii.eqb_spec c ">") as [->|N6]; reflexivity.
Qed.

Ltac escaped_case IH1 IH2 IH3 special :=
  split; [rewrite has_char_app, IH1; reflexivity|];
  split; [rewrite has_char_app, IH2; reflexivity|];
  split; [intro b; simpl; apply IH3|];
  let Hno := fresh "Hno" in
  intro Hno; exfalso; specialize (Hno _ special);
  simpl in Hno; discriminate Hno.

(** X17: the escaped title holds no angle bracket, each of its square
    and round brackets follows a backslash immediately, and a title
    with none of the six characters is left as it is. *)
Theorem escape_title_guards_markup (title : string) :
  has_char "<" (escape_title title) = false
  /\ has_char ">" (escape_title title) = false
  /\ (forall b, bare_bracket b (escape_title title) = false)
  /\ ((forall c, is_bracket c = true \/ c = "<"%char \/ c = ">"%char ->
                 has_char c title = false) ->
      escape_title title = title).
Proof.
  induction title as [|c t (IH1 & IH2 & IH3 & IH4)].
  - repeat split; reflexivity || (intros; reflexivity).
  - rewrite escape_title_cons.
    destruct (Ascii.eqb_spec c "[") as [->|N1].
    { escaped_case IH1 IH2 IH3
        (@or_introl (is_bracket "[" = true)
           ("["%char = "<"%char \/ "["%char = ">"%char) eq_refl). }
    destruct (Ascii.eqb_spec c "]") as [->|N2].
    { escaped_case IH1 IH2 IH3
        (@or_introl (is_bracket "]" = true)
           ("]"%char = "<"%char \/ "]"%char = ">"%char) eq_refl). }
    destruct (Ascii.eqb_spec c "(") as [->|N3].
    { escaped_case IH1 IH2 IH3
        (@or_introl (is_bracket "(" = true)
           ("("%char = "<"%char \/ "("%char = ">"%char) eq_refl). }
    destruct (Ascii.eqb_spec c ")") as [->|N4].
    { escaped_case IH1 IH2 IH3
        (@or_introl (is_bracket ")" = true)
           (")"%char = "<"%char \/ ")"%char = ">"%char) eq_refl). }
    destruct (Ascii.eqb_spec c "<") as [->|N5].
    { escaped_case IH1 IH2 IH3
        (@or_intror (is_bracket "<" = true)
           ("<"%char = "<"%char \/ "<"%char = ">"%char)
           (or_introl eq_refl)). }
    destruct (Ascii.eqb_spec c ">") as [->|N6].
    { escaped_case IH1 IH2 IH3
        (@or_intror (is_bracket ">" = true)
           (">"%char = "<"%char \/ ">"%char = ">"%char)
           (or_intror eq_refl)). }
    apply Ascii.eqb_neq in N1, N2, N3, N4, N5, N6.
    split; [simpl; now rewrite N5, IH1|].
    split; [simpl; now rewrite N6, IH2|].
    split.
    + intro b. simpl.
      assert (Hb : is_bracket c = false).
      { unfold is_bracket. now rewrite N1, N2, N3, N4. }
      rewrite Hb. simpl. apply IH3.
    + intro Hno. simpl. f_equal. apply IH4.
      intros a Ha. specialize (Hno a Ha). simpl in Hno.
      now apply orb_false_iff in Hno as [_ Hno].
Qed.

Lemma escape_title_guards_markup_witness :
  escape_title "Plain title" = "Plain title".
Proof.
  destruct (escape_title_guards_markup "Plain title") as (_ & _ & _ & Hp).
  apply Hp. intros c [Hc|[->| ->]]; try reflexivity.
  unfold is_bracket in Hc.
  repeat (apply orb_true_iff in Hc as [Hc|Hc]);
    apply Ascii.eqb_eq in Hc; subst; reflexivity.
Defined.

(** ** The default output path *)

Lemma safe_char_allowed (c : ascii) :
  isalnum (safe_char c) || has_char (safe_char c) "-_" = true.
Proof.
  unfold safe_char.
  destruct (isalnum c || has_char c "-_") eqn:E; [exact E | reflexivity].
Qed.

Lemma safe_char_not_slash (c : ascii) : Ascii.eqb (safe_char c) "/" = false.
Proof.
  unfold safe_char.
  destruct (isalnum c || has_char c "-_") eqn:E; [|reflexivity].
  destruct (Ascii.eqb_spec c "/") as [->|]; [discriminate E | reflexivity].
Qed.

Lemma path_name_no_separator (p : string) :
  has_char "/" p = false -> path_name p = p.
Proof.
  destruct p as [|c rest]; [reflexivity|]. simpl.
  rewrite orb_false_iff. intros [Hc Hr]. now rewrite Hr, Hc.
Qed.

(** X18: the date that [main] puts in the default output path has the
    length of the record's date, and only alphanumeric characters,
    hyphens and underscores; sanitizing it again changes nothing.  The
    path therefore holds no separator: it names a file of the working
    directory, whatever the date in the record. *)
Theorem default_output_path_is_a_file_name (date : string) :
  String.length (safe_date date) = String.length date
  /\ (forall c, has_char c (safe_date date) = true ->
                isalnum c || has_char c "-_" = true)
  /\ safe_date (safe_date date) = safe_date date
  /\ has_char "/" (default_output_path date) = false
  /\ path_name (default_output_path date) = default_output_path date.
Proof.
  assert (Hslash : has_char "/" (safe_date date) = false).
  { induction date as [|c rest IH]; [reflexivity|]. simpl.
    now rewrite IH, safe_char_not_slash. }
  assert (Hpath : has_char "/" (default_output_path date) = false).
  { unfold default_output_path. rewrite !has_char_app, Hslash.
    reflexivity. }
  split; [|split; [|split; [|split]]].
  - clear. induction date as [|c rest IH]; simpl;
      [reflexivity | now rewrite IH].
  - clear. induction date as [|a rest IH]; intros c; simpl; [discriminate|].
    rewrite orb_true_iff. intros [E|E]; [|now apply IH].
    apply Ascii.eqb_eq in E. subst c. apply safe_char_allowed.
  - clear. induction date as [|c rest IH]; simpl; [reflexivity|].
    rewrite IH. f_equal. unfold safe_char at 1.
    now rewrite safe_char_allowed.
  - exact Hpath.
  - now apply path_name_no_separator.
Qed.

(** ** The reply of the server *)

(** X19: [call_llama_cpp_api] returns a content only for a reply that
    is a mapping whose [choices] is a sequence beginning with a mapping
    whose [message] is a mapping whose [content] is a string that is not
    all white space; what it returns is that string stripped, so never
    empty and never with surrounding white space. *)
Theorem completion_content_is_stripped_text (result : json) (c : string) :
  completion_content result = ApiContent c <->
  exists items rest fields message text,
    result = JDict items
    /\ dict_get "choices" items = Some (JList (JDict fields :: rest))
    /\ dict_get "message" fields = Some (JDict message)
    /\ dict_get "content" message = Some (JStr text)
    /\ c = strip text /\ c <> "" /\ strip c = c.
Proof.
  split.
  - destruct result as [ |b|q|s|l|items]; simpl; try discriminate.
    + destruct (contains _ s); discriminate.
    + destruct (existsb _ l); discriminate.
    + destruct (dict_get "choices" items) as [choices|] eqn:Ec;
        [|discriminate].
      destruct (negb (json_truthy choices)); [discriminate|].
      destruct choices as [ |b|q|s|[|first rest]|d]; try discriminate.
      destruct first as [ |b|q|s|l|fields]; try discriminate.
      destruct (dict_get "message" fields) as [m|] eqn:Em; simpl.
      * destruct m as [ |b|q|s|l|message]; try discriminate.
        destruct (dict_get "content" message) as [t|] eqn:Et; simpl;
          [|discriminate].
        destruct t as [ |b|q|text|l|d]; try discriminate.
        destruct (negb (truthy (strip text))) eqn:Ee; [discriminate|].
        intros [= <-].
        exists items, rest, fields, message, text.
        repeat split; try assumption; try reflexivity.
        -- apply negb_false_iff in Ee. unfold truthy in Ee.
           apply negb_true_iff in Ee. now apply String.eqb_neq.
        -- apply strip_idem.
      * discriminate.
  - intros (items & rest & fields & message & text
            & -> & Ec & Em & Et & -> & Hne & _).
    simpl. rewrite Ec. simpl. rewrite Em. simpl. rewrite Et. simpl.
    apply String.eqb_neq in Hne. unfold truthy. now rewrite Hne.
Qed.

Lemma completion_content_is_stripped_text_witness :
  completion_content (sample_reply " SUMMARY ") = ApiContent "SUMMARY".
Proof.
  apply (completion_content_is_stripped_text
           (sample_reply " SUMMARY ") "SUMMARY").
  eexists _, _, _, _, " SUMMARY ".
  repeat split; try reflexivity. discriminate.
Defined.
